(** * lib-wallet: the multi-wallet manager, its dispatcher and the
      payment-asset token registry

    A shallow embedding of
    - [MultiWalletManager] (wallet lifecycle, [callWallet] dispatch, event
      subscriptions),
    - the parts of Node's [EventEmitter] the manager relies on
      ([on], [off], [emit]),
    - [WalletPay.addToken] / [WalletPay.loadToken].

    JavaScript objects that the manager only reads (wallet facades, asset
    registries, assets) are trees of property tables; objects it mutates
    (the store, the two [Map]s, the listeners of every emitter) live in the
    state that every operation threads.  An [async] method is modelled by
    the state transformer obtained when its awaited steps run in program
    order. *)

From Stdlib Require Import ZArith Lia.
From stdpp Require Import gmap strings list fin_maps pretty.

Open Scope string_scope.
Open Scope list_scope.
Set Warnings "-register-all".

(** ** JavaScript values, errors, outcomes *)

Module Js.

(** Data carried by requests and returned by methods.  Numbers are
    restricted to integers. *)
Inductive value : Type :=
| VUndef
| VNull
| VBool (b : bool)
| VNum (n : Z)
| VStr (s : string)
| VArr (items : list value)
| VObj (fields : list (string * value)).

(** [!v] is [negb (truthy v)]. *)
Definition truthy (v : value) : bool :=
  match v with
  | VUndef | VNull => false
  | VBool b => b
  | VNum n => negb (n =? 0)%Z
  | VStr s => negb (String.eqb s "")
  | VArr _ | VObj _ => true
  end.

(** String coercion, as done by a template literal and by the use of a
    value as an event name. *)
Fixpoint to_str (v : value) : string :=
  match v with
  | VUndef => "undefined"
  | VNull => "null"
  | VBool true => "true"
  | VBool false => "false"
  | VNum n => pretty n
  | VStr s => s
  | VArr items =>
      (fix join (l : list value) : string :=
         match l with
         | [] => ""
         | x :: r =>
             let item := match x with
                         | VUndef | VNull => ""
                         | _ => to_str x
                         end in
             match r with
             | [] => item
             | _ :: _ => item +:+ "," +:+ join r
             end
         end) items
  | VObj _ => "[object Object]"
  end.

(** Template-literal rendering of an optional string property. *)
Definition str_of (o : option string) : string := default "undefined" o.

(** [!s] for an optional string property. *)
Definition named (o : option string) : bool :=
  match o with
  | Some s => negb (String.eqb s "")
  | None => false
  end.

(** [o === s] for an optional string property. *)
Definition is_str (o : option string) (s : string) : bool :=
  match o with
  | Some x => String.eqb x s
  | None => false
  end.

Fixpoint chars (s : string) : list value :=
  match s with
  | EmptyString => []
  | String c r => VStr (String c EmptyString) :: chars r
  end.

Inductive error : Type :=
| Error (message : string)   (* [new Error(message)] thrown by the code *)
| TypeError                  (* raised by the runtime: a property of
                                undefined, a call of a non-function, a
                                spread of a non-iterable, a [delete] of a
                                non-configurable property *)
| Upstream (code : nat).     (* raised by an external collaborator *)

Inductive outcome (A : Type) : Type :=
| Ok (a : A)
| Throw (e : error).
Arguments Ok {A} a.
Arguments Throw {A} e.

(** [f(...v)]: the arguments obtained by spreading [v]. *)
Definition spread (v : value) : outcome (list value) :=
  match v with
  | VArr l => Ok l
  | VStr s => Ok (chars s)
  | _ => Throw TypeError
  end.

(** The failure kinds of the specification, and the kind each message of
    the code stands for. *)
Inductive kind : Type :=
| AlreadyExists
| NotFound
| InvalidNamespace
| InvalidResource
| InvalidMethod
| SubscriptionLimitExceeded
| BadArguments
| UpstreamFailure.

Definition starts (p s : string) : bool := String.prefix p s.

Definition classify (e : error) : kind :=
  match e with
  | Error msg =>
      if starts "wallet already exists" msg then AlreadyExists
      else if starts "Token already exists " msg then AlreadyExists
      else if starts "cant find wallet data" msg then NotFound
      else if starts "Wallet with name " msg then NotFound
      else if starts "handler does not exist " msg then NotFound
      else if String.eqb msg "wallet doesnt have this namespace" then InvalidNamespace
      else if String.eqb msg "wallet doesnt have this resource" then InvalidResource
      else if String.eqb msg "wallet resource does not have that method name" then InvalidMethod
      else if String.eqb msg "memory leak: too many subscriptions" then SubscriptionLimitExceeded
      else BadArguments
  | TypeError => UpstreamFailure
  | Upstream _ => UpstreamFailure
  end.

End Js.
Import Js.

(** ** Object graphs

    What the dispatcher reads of a facade: [wallet[namespace]],
    [wallet[namespace][resource]], [wallet[namespace][resource][method]]. *)

Definition fid := nat.   (* identity of an external callable *)
Definition eid := nat.   (* identity of an EventEmitter *)
Definition chan := nat.  (* identity of a caller's [notify] function *)

(** What a function value does when called: an external callable, or the
    [on] / [off] method an EventEmitter inherits. *)
Inductive callee : Type :=
| External (f : fid)
| EmitterOn (e : eid)
| EmitterOff (e : eid).

Inductive jsobj : Type :=
| JFalsy
    (* undefined or null: the result of reading an absent property *)
| JNode (callable : option callee) (emitter : option eid)
        (keys : option (list string)) (members : list (string * jsobj)).
    (* a truthy value: [callable] when it is a function, [emitter] when it
       extends EventEmitter, [keys] when it is an asset registry (the
       ordered namespace keys), and its property table *)

Fixpoint assoc {A : Type} (k : string) (l : list (string * A)) : option A :=
  match l with
  | [] => None
  | (k', v) :: r => if String.eqb k k' then Some v else assoc k r
  end.

(** [o[k]]: an emitter has its inherited [on] and [off]; any other property
    is read from the table. *)
Definition prop (o : jsobj) (k : string) : jsobj :=
  match o with
  | JFalsy => JFalsy
  | JNode _ em _ ms =>
      match em with
      | Some e =>
          if String.eqb k "on" then JNode (Some (EmitterOn e)) None None []
          else if String.eqb k "off" then JNode (Some (EmitterOff e)) None None []
          else default JFalsy (assoc k ms)
      | None => default JFalsy (assoc k ms)
      end
  end.

Definition truthy_obj (o : jsobj) : bool :=
  match o with
  | JFalsy => false
  | JNode _ _ _ _ => true
  end.

(** ** Requests, exports, facades *)

Record Request : Type := mkRequest {
  name : string;
  namespace : string;
  resource : option string;
  method : option string;
  params : value;
  notify : option chan
}.

Record WalletExport : Type := mkWalletExport {
  exp_store_path : string;
  exp_name : string;
  exp_seed : value;
  exp_assets : list value;
  exp_assetKeys : list string;
  exp_exportErrors : list value
}.

(** A wallet facade as the manager sees it: its name, its object graph and
    what [exportWallet()] resolves with. *)
Record Facade : Type := mkFacade {
  walletName : string;
  self : jsobj;
  exportWallet : outcome WalletExport
}.

(** ** Closures registered as listeners

    [EventHandler] is the function [eventHandler] created by [_subscribe];
    [BootstrapHandler] is the arrow function created by
    [_subBootstrapEvents].  Both capture the request and the event key;
    [cl_id] is the identity of the function object. *)

Inductive code : Type := EventHandler | BootstrapHandler.

Record Closure : Type := mkClosure {
  cl_id : nat;
  cl_code : code;
  cl_req : Request;
  cl_key : string
}.

(** ** The manager's state *)

(** The durable store, by the keys the manager uses: [wallets] holds the
    wallet-name sequence, [wallet-<name>] one export per wallet.  An index
    slot is [None] once [delete] has emptied it. *)
Record Store : Type := mkStore {
  wallets : option (list (option string));
  records : gmap string WalletExport
}.

Definition wallet_key (n : option string) : string := "wallet-" +:+ str_of n.

Record Manager : Type := mkManager {
  _store : Store;
  _store_path : string;
  _wallets : gmap string Facade;
  _subs : gmap string Closure;
  listeners : gmap eid (list (string * Closure));
      (* per emitter, the attached (event name, listener) pairs, oldest first *)
  invoked : list (callee * list value);
      (* the functions called through the dispatcher so far, with their
         arguments *)
  closures : nat
      (* number of function objects created so far *)
}.

Definition set_store (s : Store) (m : Manager) : Manager :=
  mkManager s (_store_path m) (_wallets m) (_subs m) (listeners m) (invoked m) (closures m).
Definition set_wallets (w : gmap string Facade) (m : Manager) : Manager :=
  mkManager (_store m) (_store_path m) w (_subs m) (listeners m) (invoked m) (closures m).
Definition set_subs (s : gmap string Closure) (m : Manager) : Manager :=
  mkManager (_store m) (_store_path m) (_wallets m) s (listeners m) (invoked m) (closures m).
Definition set_listeners (l : gmap eid (list (string * Closure))) (m : Manager) : Manager :=
  mkManager (_store m) (_store_path m) (_wallets m) (_subs m) l (invoked m) (closures m).
Definition set_invoked (i : list (callee * list value)) (m : Manager) : Manager :=
  mkManager (_store m) (_store_path m) (_wallets m) (_subs m) (listeners m) i (closures m).
Definition set_closures (n : nat) (m : Manager) : Manager :=
  mkManager (_store m) (_store_path m) (_wallets m) (_subs m) (listeners m) (invoked m) n.

(** ** The monad of manager operations: state, and a thrown error leaves
    the state as it was when it was thrown *)

Definition M (A : Type) : Type := Manager -> outcome A * Manager.

Definition ret {A : Type} (a : A) : M A := fun m => (Ok a, m).
Definition throw {A : Type} (e : error) : M A := fun m => (Throw e, m).
Definition bind {A B : Type} (c : M A) (k : A -> M B) : M B :=
  fun m =>
    match c m with
    | (Ok a, m') => k a m'
    | (Throw e, m') => (Throw e, m')
    end.
Definition get : M Manager := fun m => (Ok m, m).
Definition modify (f : Manager -> Manager) : M unit := fun m => (Ok tt, f m).
Definition lift {A : Type} (o : outcome A) : M A := fun m => (o, m).

#[global] Instance M_ret : MRet M := @ret.
#[global] Instance M_bind : MBind M := fun A B k c => bind c k.
#[global] Instance M_fmap : FMap M := fun A B f c => bind c (fun a => ret (f a)).

(** [Promise.all] over already started flows: every flow runs; the result
    is the first failure, if any. *)
Fixpoint Promise_all {A : Type} (cs : list (M A)) : M (list A) :=
  match cs with
  | [] => ret []
  | c :: r =>
      fun m =>
        match c m with
        | (Ok a, m1) =>
            match Promise_all r m1 with
            | (Ok l, m2) => (Ok (a :: l), m2)
            | (Throw e, m2) => (Throw e, m2)
            end
        | (Throw e, m1) => (Throw e, snd (Promise_all r m1))
        end
  end.

(** [for (const x of l) body(x)] *)
Fixpoint forEach {A : Type} (l : list A) (body : A -> M unit) : M unit :=
  match l with
  | [] => ret tt
  | x :: r => body x;; forEach r body
  end.

(** ** External collaborators *)

Record CreateOptions : Type := mkCreateOptions {
  opts_name : option string;
  opts_store_path : option string;
  opts_req : option Request
}.

Inductive loader_arg : Type :=
| FromOptions (name : string) (store_path : string) (req : option Request)
| FromExport (e : option WalletExport).

Record Env : Type := mkEnv {
  walletLoader : loader_arg -> string -> outcome Facade;
      (* the injected loader, applied to its argument and [store_path] *)
  bootstrapEvents_pay : list string;
      (* [walletLoader.bootstrapEvents.pay] *)
  run : fid -> list value -> outcome value;
      (* what an external callable returns or throws *)
  deliver : chan -> string -> list value -> option error
      (* what a caller's [notify(eventKey, args)] throws, if anything *)
}.

(** ** EventEmitter *)

Module EventEmitter.

Definition attached (e : eid) (m : Manager) : list (string * Closure) :=
  default [] (listeners m !! e).

(** [emitter.on(ev, listener)] *)
Definition on (e : eid) (ev : string) (c : Closure) : M unit :=
  modify (fun m => set_listeners (<[e := attached e m ++ [(ev, c)]]> (listeners m)) m).

Definition same (ev : string) (c : Closure) (x : string * Closure) : bool :=
  String.eqb ev (fst x) && Nat.eqb (cl_id c) (cl_id (snd x)).

(** Removes the first match of a list. *)
Fixpoint remove_first (ev : string) (c : Closure) (l : list (string * Closure))
  : list (string * Closure) :=
  match l with
  | [] => []
  | x :: r => if same ev c x then r else x :: remove_first ev c r
  end.

(** [emitter.off(ev, listener)]: removes the most recently attached
    instance of the listener, if any. *)
Definition off (e : eid) (ev : string) (c : Closure) : M unit :=
  modify (fun m =>
    set_listeners (<[e := rev (remove_first ev c (rev (attached e m)))]> (listeners m)) m).

End EventEmitter.

(** ** The manager *)

Record SetupOptions : Type := mkSetupOptions {
  all : bool;
  setup_name : option string
}.

(** What [_setupWallet] returns: the loaded facades, or (for [opts.all])
    the wallet-name sequence it read. *)
Inductive setup_result : Type :=
| Wallets (ws : list Facade)
| Names (l : list (option string)).

(** [walletList.includes(n)] *)
Fixpoint includes (n : string) (l : list (option string)) : bool :=
  match l with
  | [] => false
  | Some s :: r => String.eqb s n || includes n r
  | None :: r => includes n r
  end.

(** Decimal digits of a canonical array index. *)
Definition digit (a : Ascii.ascii) : option N :=
  let n := Ascii.N_of_ascii a in
  if ((48 <=? n) && (n <=? 57))%N then Some (n - 48)%N else None.

Fixpoint digits (acc : N) (s : string) : option N :=
  match s with
  | EmptyString => Some acc
  | String a r =>
      match digit a with
      | Some d => digits (acc * 10 + d)%N r
      | None => None
      end
  end.

(** [Some i] when the property key [s] is the array index [i]. *)
Definition array_index (s : string) : option nat :=
  match digits 0%N s with
  | Some n =>
      if String.eqb (pretty n) s && (n <? 4294967295)%N
      then Some (N.to_nat n) else None
  | None => None
  end.

(** [delete walletList[k]] in strict code: an index in range leaves an empty
    slot, [length] cannot be deleted, any other key is not a property of the
    array. *)
Definition delete_prop (l : list (option string)) (k : string)
  : outcome (list (option string)) :=
  match array_index k with
  | Some i => Ok (if (i <? length l)%nat then <[i := None]> l else l)
  | None => if String.eqb k "length" then Throw TypeError else Ok l
  end.

(** [opts.name || 'default'] and [opts.store_path || this._store_path] *)
Definition created_name (opts : CreateOptions) : string :=
  if named (opts_name opts) then str_of (opts_name opts) else "default".

Definition created_path (opts : CreateOptions) (m : Manager) : string :=
  if named (opts_store_path opts) then str_of (opts_store_path opts) else _store_path m.

(** The arguments the dispatcher passes to a method: [...req.params] for an
    array, [req.params] otherwise. *)
Definition arguments (req : Request) : list value :=
  match params req with
  | VArr l => l
  | p => [p]
  end.

Definition emitter_of (o : jsobj) : option eid :=
  match o with
  | JNode _ em _ _ => em
  | JFalsy => None
  end.

Section Manager.

Context (E : Env).

(** [req.notify(eventKey, [...args])] *)
Definition forward (req : Request) (eventKey : string) (args : list value)
  : option error :=
  match notify req with
  | Some ch => deliver E ch eventKey args
  | None => Some TypeError
  end.

(** [function eventHandler (...args) { try { ... } catch { } }] *)
Definition eventHandler (req : Request) (eventKey : string) (args : list value)
  : option error :=
  match forward req eventKey args with
  | Some _ => None
  | None => None
  end.

(** [(...args) => { req.notify(eventKey, [...args]) }] *)
Definition bootstrapHandler (req : Request) (eventKey : string) (args : list value)
  : option error :=
  forward req eventKey args.

Definition apply_closure (c : Closure) (args : list value) : option error :=
  match cl_code c with
  | EventHandler => eventHandler (cl_req c) (cl_key c) args
  | BootstrapHandler => bootstrapHandler (cl_req c) (cl_key c) args
  end.

(** The listeners of [ev] are called in the order they were attached; an
    exception thrown by one of them leaves [emit]. *)
Fixpoint call_listeners (ev : string) (l : list (string * Closure))
         (args : list value) : option error :=
  match l with
  | [] => None
  | (ev', c) :: r =>
      if String.eqb ev ev' then
        match apply_closure c args with
        | Some e => Some e
        | None => call_listeners ev r args
        end
      else call_listeners ev r args
  end.

(** [emitter.emit(ev, ...args)] *)
Definition emit (e : eid) (ev : string) (args : list value) : M bool :=
  fun m =>
    let l := EventEmitter.attached e m in
    match call_listeners ev l args with
    | Some err => (Throw err, m)
    | None => (Ok (existsb (fun x => String.eqb ev (fst x)) l), m)
    end.

(** [o.on(ev, f)] and [o.off(ev, f)] on a value of the object graph: the
    facade and the assets extend EventEmitter; a value that is not an
    emitter has no [on] / [off] to call. *)
Definition js_on (o : jsobj) (ev : string) (c : Closure) : M unit :=
  match o with
  | JNode _ (Some e) _ _ => EventEmitter.on e ev c
  | _ => throw TypeError
  end.

Definition js_off (o : jsobj) (ev : string) (c : Closure) : M unit :=
  match o with
  | JNode _ (Some e) _ _ => EventEmitter.off e ev c
  | _ => throw TypeError
  end.

(** What calling [c] with [args] returns or throws.  The arguments are
    data, so an emitter's [on] / [off] rejects its listener argument. *)
Definition apply (c : callee) (args : list value) : outcome value :=
  match c with
  | External f => run E f args
  | EmitterOn _ | EmitterOff _ => Throw TypeError
  end.

(** [f(...args)] for a value of the object graph *)
Definition call (o : jsobj) (args : list value) : M value :=
  match o with
  | JNode (Some c) _ _ _ =>
      fun m => (apply c args, set_invoked (invoked m ++ [(c, args)]) m)
  | _ => throw TypeError
  end.

(** A new function object. *)
Definition closure (c : code) (req : Request) (eventKey : string) : M Closure :=
  fun m => (Ok (mkClosure (closures m) c req eventKey), set_closures (S (closures m)) m).

Definition MAX_SUB_SIZE : Z := 10000.

Definition getWalletList : M (list (option string)) :=
  m ← get; ret (default [] (wallets (_store m))).

Definition _updateWalletList (data : list (option string)) : M unit :=
  modify (fun m => set_store (mkStore (Some data) (records (_store m))) m).

Definition getWallet (_ : value) (n : option string) : M (option WalletExport) :=
  m ← get; ret (records (_store m) !! wallet_key n).

Definition _runWalletLoader (walletExp : loader_arg) : M Facade :=
  m ← get; lift (walletLoader E walletExp (_store_path m)).

Definition addWallet (req : Request) (walletExport : WalletExport) : M unit :=
  walletList ← getWalletList;
  if includes (exp_name walletExport) walletList
  then throw (Error "wallet already exists")
  else
    let walletList := walletList ++ [Some (exp_name walletExport)] in
    modify (fun m =>
      set_store (mkStore (wallets (_store m))
                   (<[wallet_key (Some (exp_name walletExport)) := walletExport]>
                      (records (_store m)))) m);;
    _updateWalletList walletList.

Definition removeWallet (req : Request) (n : string) : M unit :=
  walletList ← getWalletList;
  walletList ← lift (delete_prop walletList n);
  _updateWalletList walletList.

Definition _load (config : option WalletExport) : M Facade :=
  match config with
  | None => throw TypeError
  | Some config =>
      walletExp ← getWallet (VObj []) (Some (exp_name config));
      wallet ← _runWalletLoader (FromExport walletExp);
      modify (fun m => set_wallets (<[exp_name config := wallet]> (_wallets m)) m);;
      ret wallet
  end.

(** In the [opts.all] branch the callback reads
    [this.getWallet({}.walletName)]: the first argument of [getWallet] is
    the undefined property of an empty object and the name is not passed,
    so the key read is [wallet-undefined]. *)
Definition _setupWallet (opts : option SetupOptions) : M setup_result :=
  walletList ← getWalletList;
  match opts with
  | None => throw TypeError
  | Some opts =>
      if all opts then
        Promise_all
          (map (fun walletName : option string =>
                  config ← getWallet VUndef None;
                  _load config;; ret tt)
               walletList);;
        ret (Names walletList)
      else
        config ← getWallet (VObj []) (setup_name opts);
        match config with
        | None => throw (Error "cant find wallet data")
        | Some _ => wallet ← _load config; ret (Wallets [wallet])
        end
  end.

(** [res.map((w) => w.walletName)]: a name has no [walletName], an empty
    slot has no properties at all. *)
Definition loadWallet (opts : option SetupOptions) (param : list SetupOptions)
  : M (list (option string)) :=
  res ← _setupWallet (head param);
  match res with
  | Wallets ws => ret (map (fun w => Some (walletName w)) ws)
  | Names l =>
      if forallb (fun x : option string => bool_decide (is_Some x)) l
      then ret (map (fun _ => None) l)
      else throw TypeError
  end.

(** Modelled from the spec: [AssetList.each] (asset-list.js is not part of
    the sources), the iteration over the asset registry in insertion
    order, calling [fn(asset, key)] for every registered key. *)
Definition each (registry : jsobj) (fn : jsobj -> string -> M unit) : M unit :=
  match registry with
  | JNode _ _ (Some ks) _ => forEach ks (fun k => fn (prop registry k) k)
  | _ => throw TypeError
  end.

Definition _subBootstrapEvents (wallet : Facade) (req : Request) : M unit :=
  let payEvents := bootstrapEvents_pay E in
  each (prop (self wallet) "pay") (fun asset k =>
    forEach payEvents (fun ev =>
      let eventKey := walletName wallet +:+ ":pay-" +:+ k +:+ ":" +:+ ev in
      f ← closure BootstrapHandler req eventKey;
      js_on asset ev f)).

Definition createWallet (req : Request) (opts : CreateOptions) : M WalletExport :=
  let opts_name := if named (opts_name opts) then str_of (opts_name opts) else "default" in
  m ← get;
  let opts_store_path :=
    if named (opts_store_path opts) then str_of (opts_store_path opts)
    else _store_path m in
  match _wallets m !! opts_name with
  | Some _ => throw (Error "wallet already exists with name")
  | None =>
      wallet ← _runWalletLoader (FromOptions opts_name opts_store_path (opts_req opts));
      walletExport ← lift (exportWallet wallet);
      modify (fun m => set_wallets (<[walletName wallet := wallet]> (_wallets m)) m);;
      addWallet req walletExport;;
      match opts_req opts with
      | Some r => _subBootstrapEvents wallet r
      | None => ret tt
      end;;
      ret walletExport
  end.

(** Returns the event name and the request whose [params] lost it
    ([shift] mutates the array). *)
Definition _getEventName (req : Request) : M (value * Request) :=
  match params req with
  | VArr l =>
      let eventName := hd VUndef l in
      let req := mkRequest (name req) (namespace req) (resource req) (method req)
                   (VArr (tl l)) (notify req) in
      if truthy eventName then ret (eventName, req)
      else throw (Error "event name is missing")
  | _ => throw (Error "req params must be an array")
  end.

Definition _getEventHandler (k : string) : M Closure :=
  m ← get;
  match _subs m !! k with
  | Some handler => ret handler
  | None => throw (Error ("handler does not exist " +:+ k))
  end.

Definition wallet_key_of (req : Request) (eventName : value) : string :=
  name req +:+ ":" +:+ to_str eventName.

Definition resource_key_of (req : Request) (eventName : value) : string :=
  name req +:+ ":" +:+ namespace req +:+ "-" +:+ str_of (resource req)
    +:+ ":" +:+ to_str eventName.

Definition _subscribe (req : Request) (wallet : Facade) (opts : string) : M string :=
  '(eventName, req) ← _getEventName req;
  m ← get;
  if (Z.of_nat (size (_subs m)) =? MAX_SUB_SIZE)%Z
  then throw (Error "memory leak: too many subscriptions")
  else
    if String.eqb opts "wallet" then
      let eventKey := wallet_key_of req eventName in
      eventHandler ← closure EventHandler req eventKey;
      js_on (self wallet) (to_str eventName) eventHandler;;
      modify (fun m => set_subs (<[eventKey := eventHandler]> (_subs m)) m);;
      ret eventKey
    else if String.eqb opts "resource" then
      let eventKey := resource_key_of req eventName in
      eventHandler ← closure EventHandler req eventKey;
      js_on (prop (prop (self wallet) (namespace req)) (str_of (resource req)))
            (to_str eventName) eventHandler;;
      modify (fun m => set_subs (<[eventKey := eventHandler]> (_subs m)) m);;
      ret eventKey
    else throw (Error "invalid subscriptions opts").

Definition _unsubscribe (req : Request) (wallet : Facade) (opts : string) : M string :=
  '(eventName, req) ← _getEventName req;
  if String.eqb opts "wallet" then
    let eventKey := wallet_key_of req eventName in
    handler ← _getEventHandler eventKey;
    js_off (self wallet) (to_str eventName) handler;;
    modify (fun m => set_subs (delete eventKey (_subs m)) m);;
    ret eventKey
  else if String.eqb opts "resource" then
    let eventKey := resource_key_of req eventName in
    let target := prop (prop (self wallet) (namespace req)) (str_of (resource req)) in
    if truthy_obj target then
      handler ← _getEventHandler eventKey;
      js_off target (to_str eventName) handler;;
      modify (fun m => set_subs (delete eventKey (_subs m)) m);;
      ret eventKey
    else throw TypeError
  else throw (Error "invalid unsub opts").

Definition callWallet (req : Request) : M value :=
  m ← get;
  wallet ← match _wallets m !! name req with
           | Some wallet => ret wallet
           | None =>
               res ← _setupWallet (Some (mkSetupOptions false (Some (name req))));
               match res with
               | Wallets ws =>
                   match last ws with
                   | Some wallet => _subBootstrapEvents wallet req;; ret wallet
                   | None =>
                       throw (Error ("Wallet with name " +:+ name req +:+ " not found "))
                   end
               | Names _ => throw TypeError (* not reached: [all] is unset *)
               end
           end;
  let ns := prop (self wallet) (namespace req) in
  if negb (truthy_obj ns) then throw (Error "wallet doesnt have this namespace")
  else if String.eqb (namespace req) "on" then
    VStr <$> _subscribe req wallet "wallet"
  else if String.eqb (namespace req) "off" then
    VStr <$> _unsubscribe req wallet "wallet"
  else if negb (named (resource req)) then
    args ← lift (spread (params req)); call ns args
  else
    let res := prop ns (str_of (resource req)) in
    if negb (truthy_obj res) then throw (Error "wallet doesnt have this resource")
    else if is_str (method req) "on" then
      VStr <$> _subscribe req wallet "resource"
    else if is_str (method req) "off" then
      VStr <$> _unsubscribe req wallet "resource"
    else
      let mth := prop res (str_of (method req)) in
      if negb (truthy_obj mth)
      then throw (Error "wallet resource does not have that method name")
      else
        match params req with
        | VArr l => call mth l
        | p => call mth [p]
        end.

End Manager.

(** ** Sequences of subscriptions *)

(** One call of [_subscribe]: the request, the facade, the scope. *)
Definition subscription : Type := Request * Facade * string.

(** The emitter a subscription attaches to. *)
Definition target_of (s : subscription) : jsobj :=
  let '(req, wallet, opts) := s in
  if String.eqb opts "wallet" then self wallet
  else prop (prop (self wallet) (namespace req)) (str_of (resource req)).

(** The key a subscription derives. *)
Definition key_of (s : subscription) : string :=
  let '(req, wallet, opts) := s in
  if String.eqb opts "wallet" then wallet_key_of req (hd VUndef (match params req with VArr l => l | _ => [] end))
  else resource_key_of req (hd VUndef (match params req with VArr l => l | _ => [] end)).

Arguments key_of : simpl never.
Arguments target_of : simpl never.

(** [req.params] is an array that starts with an event name. *)
Definition names_event (req : Request) : bool :=
  match params req with
  | VArr (eventName :: _) => truthy eventName
  | _ => false
  end.

(** A subscription that has an event name, a known scope and an emitter to
    attach to. *)
Definition subscribable (s : subscription) : bool :=
  let '(req, wallet, opts) := s in
  names_event req
  && (String.eqb opts "wallet" || String.eqb opts "resource")
  && bool_decide (is_Some (emitter_of (target_of s))).

(** The subscriptions of a list, made one after the other. *)
Fixpoint subscribe_all (l : list subscription) : M (list string) :=
  match l with
  | [] => ret []
  | (req, wallet, opts) :: r =>
      k ← _subscribe req wallet opts;
      ks ← subscribe_all r;
      ret (k :: ks)
  end.

(** State reached by a successful [_subscribe]. *)
Definition subscribed (m : Manager) (e : eid) (ev key : string) (h : Closure) : Manager :=
  set_subs (<[key := h]> (_subs m))
    (set_listeners (<[e := EventEmitter.attached e m ++ [(ev, h)]]> (listeners m))
       (set_closures (S (closures m)) m)).

(** State reached by a successful [_unsubscribe]. *)
Definition unsubscribed (m : Manager) (e : eid) (ev key : string) (h : Closure) : Manager :=
  set_subs (delete key (_subs m))
    (set_listeners
       (<[e := rev (EventEmitter.remove_first ev h (rev (EventEmitter.attached e m)))]>
          (listeners m)) m).

(** What attaching listeners leaves alone: the two maps, the store, the
    record of calls. *)
Definition same_maps (m m' : Manager) : Prop :=
  _subs m' = _subs m /\ _wallets m' = _wallets m /\ _store m' = _store m
  /\ invoked m' = invoked m.

(** ** WalletPay: the token registry of a payment asset *)

Module WalletPay.

Record Token : Type := mkToken {
  token_name : string;
  token_currency : value
}.

(** [this._tokens], a [Map] in insertion order. *)
Record t : Type := mkWalletPay {
  assetName : string;
  _tokens : list (string * Token)
}.

Definition has (k : string) (l : list (string * Token)) : bool :=
  bool_decide (is_Some (assoc k l)).

(** [Map.prototype.set]: an existing key keeps its position. *)
Fixpoint set (k : string) (v : Token) (l : list (string * Token))
  : list (string * Token) :=
  match l with
  | [] => [(k, v)]
  | (k', v') :: r => if String.eqb k k' then (k, v) :: r else (k', v') :: set k v r
  end.

Definition addToken (token : Token) (this : t) : outcome unit * t :=
  if negb (has (token_name token) (_tokens this))
  then (Throw (Error ("Token already exists " +:+ token_name token)), this)
  else (Ok tt, mkWalletPay (assetName this)
                 (set (token_name token) token (_tokens this))).

Fixpoint loadToken (tokens : list Token) (this : t) : outcome unit * t :=
  match tokens with
  | [] => (Ok tt, this)
  | tk :: r =>
      if String.eqb (token_name tk) ""
      then (Throw (Error "token class missing name"), this)
      else loadToken r (mkWalletPay (assetName this)
                          (set (token_name tk) tk (_tokens this)))
  end.

Definition getTokensKeys (this : t) : list string := map fst (_tokens this).

End WalletPay.

(** ** A concrete deployment, used to run the model

    One loader building wallets with a single [btc] asset that exposes
    [getBalance]; the loader declares [new-tx] as bootstrap event; channel
    [0] accepts every notification, any other channel is broken. *)

Module Scenario.

Definition getBalance : fid := 7.

Definition btc : jsobj :=
  JNode None (Some 1) None
    [("getBalance", JNode (Some (External getBalance)) None None [])].

Definition pay : jsobj := JNode None None (Some ["btc"]) [("btc", btc)].

Definition export_of (n : string) : WalletExport :=
  mkWalletExport "/data" n (VObj []) [] ["btc"] [].

Definition facade (n : string) : Facade :=
  mkFacade n (JNode None (Some 0) None [("pay", pay)]) (Ok (export_of n)).

Definition env : Env :=
  mkEnv
    (fun arg _ =>
       match arg with
       | FromOptions n _ _ => Ok (facade n)
       | FromExport (Some e) => Ok (facade (exp_name e))
       | FromExport None => Throw TypeError
       end)
    ["new-tx"]
    (fun f _ => if Nat.eqb f getBalance then Ok (VNum 42) else Throw (Upstream f))
    (fun ch _ _ => if Nat.eqb ch 0 then None else Some (Upstream ch)).

Definition store_of (l : list string) : Store :=
  mkStore (Some (map Some l))
    (list_to_map (map (fun n => (wallet_key (Some n), export_of n)) l)).

(** A manager whose index holds [stored] and whose memory holds [live]. *)
Definition manager (stored live : list string) : Manager :=
  mkManager (store_of stored) "/data"
    (list_to_map (map (fun n => (n, facade n)) live)) ∅ ∅ [] 0.

Definition request (n ns : string) (res mth : option string) (ps : value)
           (ch : option chan) : Request :=
  mkRequest n ns res mth ps ch.

Definition usdt : WalletPay.Token := WalletPay.mkToken "USDT" (VStr "USDT").

(** The [i]-th of a family of wallet-level subscriptions of "w", to the
    events e0, e1, e2, ... *)
Definition numbered (i : nat) : subscription :=
  (request "w" "on" None None (VArr [VStr ("e" +:+ pretty i)]) (Some 0), facade "w", "wallet").

(** As many of them as the subscription map can hold. *)
Definition full_house : list subscription :=
  map numbered (seq 0 (Z.to_nat MAX_SUB_SIZE)).

End Scenario.

(** ** Invariants of the manager *)

(** The names an index holds, empty slots left out. *)
Definition names_of (l : list (option string)) : list string := omap id l.

(** What the store holds under [wallets], read as [getWalletList] reads it. *)
Definition index (m : Manager) : list (option string) := default [] (wallets (_store m)).

(** [c] keeps [P]: whatever [c] returns or throws, [P] holds of the state
    it leaves when [P] held of the state it started from. *)
Definition preserves {A : Type} (P : Manager -> Prop) (c : M A) : Prop :=
  forall m, P m -> P (snd (c m)).

(** The subscription map is within its capacity. *)
Definition within_capacity (m : Manager) : Prop :=
  (Z.of_nat (size (_subs m)) <= MAX_SUB_SIZE)%Z.

(** A request that is neither a wallet-level nor a resource-level
    subscription control call. *)
Definition plain_call (req : Request) : bool :=
  negb (String.eqb (namespace req) "on") && negb (String.eqb (namespace req) "off")
  && negb (is_str (method req) "on") && negb (is_str (method req) "off").

(** ** WalletPay.callToken *)

Module TokenCalls.

Section Calls.

(** [token[method]] when it is a function, and what calling a function
    resolves or rejects with (the methods of a token are [async]). *)
Context (method_of : WalletPay.Token -> string -> option fid).
Context (run : fid -> list value -> outcome value).

(** The callback of [tokens.map]: a missing token or method is thrown while
    the array is mapped, a call yields a promise. *)
Definition start_one (this : WalletPay.t) (method : string) (argArr : list value)
           (tName : string) : outcome (outcome value) :=
  match assoc tName (WalletPay._tokens this) with
  | None => Throw (Error ("token with name: " +:+ tName +:+ " does not exist in _tokens"))
  | Some token =>
      match method_of token method with
      | None => Throw (Error ("Method " +:+ method +:+ " does not exist in token " +:+ tName))
      | Some fn => Ok (run fn argArr)
      end
  end.

(** [tokens.map(cb)]: the promises, or what the first throwing callback
    throws. *)
Fixpoint start (this : WalletPay.t) (method : string) (argArr : list value)
         (tokens : list string) : outcome (list (outcome value)) :=
  match tokens with
  | [] => Ok []
  | tName :: r =>
      match start_one this method argArr tName with
      | Throw e => Throw e
      | Ok p =>
          match start this method argArr r with
          | Throw e => Throw e
          | Ok ps => Ok (p :: ps)
          end
      end
  end.

(** [Promise.all] of settled promises: the values, or the first rejection. *)
Fixpoint join (ps : list (outcome value)) : outcome (list value) :=
  match ps with
  | [] => Ok []
  | Throw e :: _ => Throw e
  | Ok v :: r =>
      match join r with
      | Throw e => Throw e
      | Ok vs => Ok (v :: vs)
      end
  end.

Definition callToken (method : string) (tokenName : value) (argArr : list value)
           (this : WalletPay.t) : outcome value :=
  match (if negb (truthy tokenName) then Ok (WalletPay.getTokensKeys this)
         else match tokenName with
              | VStr s => Ok [s]
              | _ => Throw (Error ("invalid token name passed: " +:+ to_str tokenName))
              end) with
  | Throw e => Throw e
  | Ok tokens =>
      match start this method argArr tokens with
      | Throw e => Throw e
      | Ok ps =>
          match join ps with
          | Throw e => Throw e
          | Ok [r] => Ok r
          | Ok res => Ok (VArr res)
          end
      end
  end.

End Calls.

End TokenCalls.

(** ** TxEntry *)

Module TxEntry.


(** The [data] object passed to the constructor. *)
Record data : Type := mkData {
  d_from_address : value;
  d_to_address : value;
  d_fee : value;
  d_total_amount : value;
  d_amount : value;
  d_fee_rate : value;
  d_txid : value;
  d_direction : value
}.

Record t : Type := mkTxEntry {
  from_address : value;
  to_address : value;
  fee : value;
  total_amount : value;
  amount : value;
  fee_rate : value;
  txid : value;
  direction : value;
  currency : value;
  isValid : bool
}.




End TxEntry.

(** ** The dispatch steps of [callWallet]

    What [callWallet] does once it holds the facade (lines 200-225 of the
    manager). *)
Definition dispatch (E : Env) (req : Request) (wallet : Facade) : M value :=
  let ns := prop (self wallet) (namespace req) in
  if negb (truthy_obj ns) then throw (Error "wallet doesnt have this namespace")
  else if String.eqb (namespace req) "on" then
    VStr <$> _subscribe req wallet "wallet"
  else if String.eqb (namespace req) "off" then
    VStr <$> _unsubscribe req wallet "wallet"
  else if negb (named (resource req)) then
    args ← lift (spread (params req)); call E ns args
  else
    let res := prop ns (str_of (resource req)) in
    if negb (truthy_obj res) then throw (Error "wallet doesnt have this resource")
    else if is_str (method req) "on" then
      VStr <$> _subscribe req wallet "resource"
    else if is_str (method req) "off" then
      VStr <$> _unsubscribe req wallet "resource"
    else
      let mth := prop res (str_of (method req)) in
      if negb (truthy_obj mth)
      then throw (Error "wallet resource does not have that method name")
      else
        match params req with
        | VArr l => call E mth l
        | p => call E mth [p]
        end.

(** The message [_getEventName] throws for a request that names no event. *)
Definition event_name_error (req : Request) : string :=
  match params req with
  | VArr _ => "event name is missing"
  | _ => "req params must be an array"
  end.

(** ** Further sample data *)

Module Samples.

(** A facade that also exposes the facade-level method [syncHistory]. *)
Definition syncing : Facade :=
  mkFacade "s"
    (JNode None (Some 0) None
       [("pay", Scenario.pay); ("syncHistory", JNode (Some (External 8)) None None [])])
    (Ok (Scenario.export_of "s")).

Definition syncing_manager : Manager :=
  mkManager (Scenario.store_of ["s"]) "/data" {["s" := syncing]} ∅ ∅ [] 0.

Definition usdc : WalletPay.Token := WalletPay.mkToken "USDC" (VStr "USDC").

Definition unnamed : WalletPay.Token := WalletPay.mkToken "" VNull.

(** Every token has the method [getBalance] (function 7) and no other. *)
Definition method_of (tk : WalletPay.Token) (method : string) : option fid :=
  if String.eqb method "getBalance" then Some 7 else None.

Definition run (f : fid) (args : list value) : outcome value :=
  if Nat.eqb f 7 then Ok (VNum 42) else Throw (Upstream f).

End Samples.

(** ** Properties of the state, and the operations as a whole *)

(** A property that reads the state through the store, the two maps only. *)
Definition reads_maps (P : Manager -> Prop) : Prop :=
  forall m m', _store m' = _store m -> _wallets m' = _wallets m -> _subs m' = _subs m ->
               P m -> P m'.

(** A property of the manager that survives what dispatch and loading can
    do to the state: attach or detach listeners, create closures, record a
    call, materialize a wallet, register a handler while there is room,
    remove a handler. *)
Definition stable (P : Manager -> Prop) : Prop :=
  reads_maps P
  /\ (forall m k w, P m -> P (set_wallets (<[k := w]> (_wallets m)) m))
  /\ (forall m k h, P m -> Z.of_nat (size (_subs m)) <> MAX_SUB_SIZE ->
                    P (set_subs (<[k := h]> (_subs m)) m))
  /\ (forall m k, P m -> P (set_subs (delete k (_subs m)) m)).

(** A property that survives what loading can do to the state. *)
Definition loadable (P : Manager -> Prop) : Prop :=
  reads_maps P
  /\ (forall m k w, P m -> P (set_wallets (<[k := w]> (_wallets m)) m)).

(** A property that reads the state through the subscription map only. *)
Definition reads_subs (P : Manager -> Prop) : Prop :=
  forall m m', _subs m' = _subs m -> P m -> P m'.

(** A property that reads the state through the store only. *)
Definition reads_store (P : Manager -> Prop) : Prop :=
  forall m m', _store m' = _store m -> P m -> P m'.

(** A property that does not read the store. *)
Definition ignores_store (P : Manager -> Prop) : Prop :=
  forall m s, P m -> P (set_store s m).

(** The names of an index are pairwise distinct and each has an export
    record in the store. *)
Definition indexed (s : Store) : Prop :=
  NoDup (names_of (default [] (wallets s)))
  /\ forall n, n ∈ names_of (default [] (wallets s)) ->
               is_Some (records s !! wallet_key (Some n)).

(** The public operations of the manager that change its state. *)
Inductive operation : Type :=
| Create (req : Request) (opts : CreateOptions)
| Add (req : Request) (walletExport : WalletExport)
| Remove (req : Request) (n : string)
| Load (opts : option SetupOptions) (param : list SetupOptions)
| Call (req : Request).

(** The state an operation leaves, whether it resolves or rejects. *)
Definition perform (E : Env) (m : Manager) (op : operation) : Manager :=
  match op with
  | Create req opts => snd (createWallet E req opts m)
  | Add req e => snd (addWallet req e m)
  | Remove req n => snd (removeWallet req n m)
  | Load o param => snd (loadWallet E o param m)
  | Call req => snd (callWallet E req m)
  end.

(** [new MultiWalletManager({store_path}, walletLoader)] over the store
    found under that path: both maps are empty. *)
Definition constructed (disk : Store) (store_path : string) : Manager :=
  mkManager disk store_path ∅ ∅ ∅ [] 0.

(** State after [addWallet] stored [e] under a name the index did not hold. *)
Definition persisted (m : Manager) (e : WalletExport) : Manager :=
  set_store (mkStore (Some (index m ++ [Some (exp_name e)]))
               (<[wallet_key (Some (exp_name e)) := e]> (records (_store m)))) m.

(** * Properties *)

Import Scenario.

(** Unfolds the monadic plumbing of an operation. *)
Ltac run_monad :=
  repeat (unfold mbind, mret, fmap, M_bind, M_ret, M_fmap,
            bind, ret, throw, get, modify, lift in *; cbn beta iota zeta in *).

(** ** Token registry *)

Lemma addToken_absent (token : WalletPay.Token) (this : WalletPay.t) :
  assoc (WalletPay.token_name token) (WalletPay._tokens this) = None ->
  WalletPay.addToken token this
  = (Throw (Error ("Token already exists " +:+ WalletPay.token_name token)), this).
Proof.
  intros Habs. unfold WalletPay.addToken, WalletPay.has. rewrite Habs.
  rewrite bool_decide_eq_false_2; [reflexivity|].
  intros [x Hx]. discriminate.
Qed.

Lemma addToken_present (token old : WalletPay.Token) (this : WalletPay.t) :
  assoc (WalletPay.token_name token) (WalletPay._tokens this) = Some old ->
  WalletPay.addToken token this
  = (Ok tt, WalletPay.mkWalletPay (WalletPay.assetName this)
              (WalletPay.set (WalletPay.token_name token) token (WalletPay._tokens this))).
Proof.
  intros Hpres. unfold WalletPay.addToken, WalletPay.has. rewrite Hpres.
  rewrite bool_decide_eq_true_2; [reflexivity|]. eexists; reflexivity.
Qed.

Lemma set_keeps_keys (k : string) (v old : WalletPay.Token) (l : list (string * WalletPay.Token)) :
  assoc k l = Some old -> map fst (WalletPay.set k v l) = map fst l.
Proof.
  induction l as [|[k' v'] r IH]; simpl; [discriminate|].
  destruct (String.eqb k k') eqn:Hk.
  - intros _. simpl. apply String.eqb_eq in Hk. now subst.
  - intros Hr. simpl. f_equal. now apply IH.
Qed.

(** C6: [addToken] on an asset without tokens, given the token USDT, throws
    "Token already exists USDT" and registers nothing; given USDT again on
    an asset that already holds USDT it returns normally, the key set of
    the registry being what it was.  The guard of [addToken] is the
    negation of the one the claim describes. *)
Theorem addToken_guard_is_inverted :
  WalletPay.addToken usdt (WalletPay.mkWalletPay "eth" [])
  = (Throw (Error "Token already exists USDT"), WalletPay.mkWalletPay "eth" [])
  /\ WalletPay.addToken usdt (WalletPay.mkWalletPay "eth" [("USDT", usdt)])
     = (Ok tt, WalletPay.mkWalletPay "eth" [("USDT", usdt)])
  /\ classify (Error "Token already exists USDT") = AlreadyExists.
Proof. repeat split; vm_compute; reflexivity. Qed.

(** ** The persisted index *)

Lemma removeWallet_wallets (req : Request) (n : string) (m : Manager) :
  _wallets (snd (removeWallet req n m)) = _wallets m
  /\ _subs (snd (removeWallet req n m)) = _subs m
  /\ records (_store (snd (removeWallet req n m))) = records (_store m).
Proof.
  unfold removeWallet, getWalletList, _updateWalletList. run_monad.
  destruct (delete_prop _ n); simpl; auto.
Qed.

(** A name that is neither an array index nor [length] is not a property of
    the array: [delete] finds nothing to remove. *)
Lemma removeWallet_not_an_index (req : Request) (n : string) (m : Manager) :
  array_index n = None -> n <> "length" ->
  fst (removeWallet req n m) = Ok tt
  /\ wallets (_store (snd (removeWallet req n m))) = Some (default [] (wallets (_store m))).
Proof.
  intros Hidx Hlen.
  unfold removeWallet, getWalletList, _updateWalletList, delete_prop. run_monad.
  rewrite Hidx.
  destruct (String.eqb n "length") eqn:Hn.
  - apply String.eqb_eq in Hn. contradiction.
  - simpl. auto.
Qed.

(** C3: with the index ["default"] and the wallet "default" materialized,
    [removeWallet("default")] resolves, the stored sequence is still
    ["default"] and still includes the name; the in-memory facade is
    untouched.  [delete walletList[name]] addresses a property called
    "default", which the array does not have. *)
Theorem removeWallet_leaves_name_in_index :
  let m := manager ["default"] ["default"] in
  let r := removeWallet (request "" "" None None VUndef None) "default" m in
  fst r = Ok tt
  /\ wallets (_store (snd r)) = Some [Some "default"]
  /\ getWalletList (snd r) = (Ok [Some "default"], snd r)
  /\ includes "default" [Some "default"] = true
  /\ _wallets (snd r) = _wallets m.
Proof. repeat split; vm_compute; reflexivity. Qed.

(** ** Loading *)

(** A single named wallet without export record: [NotFound]. *)
Lemma loadWallet_missing_record (E : Env) (o : option SetupOptions)
      (n : option string) (rest : list SetupOptions) (m : Manager) :
  records (_store m) !! wallet_key n = None ->
  loadWallet E o (mkSetupOptions false n :: rest) m
  = (Throw (Error "cant find wallet data"), m)
  /\ classify (Error "cant find wallet data") = NotFound.
Proof.
  intros Hrec. split; [|reflexivity].
  unfold loadWallet, _setupWallet, getWalletList, getWallet. run_monad. simpl.
  rewrite Hrec. reflexivity.
Qed.

(** Flows that all fail at once, leaving the state alone. *)
Lemma Promise_all_state {A : Type} (cs : list (M A)) (e : error) (m : Manager) :
  Forall (fun c => c m = (Throw e, m)) cs -> snd (Promise_all cs m) = m.
Proof.
  induction 1 as [|c r Hc Hr IH]; simpl; [reflexivity|].
  rewrite Hc. exact IH.
Qed.

Lemma Promise_all_failing {A : Type} (cs : list (M A)) (e : error) (m : Manager) :
  cs <> [] ->
  Forall (fun c => c m = (Throw e, m)) cs ->
  Promise_all cs m = (Throw e, m).
Proof.
  intros Hne Hall. destruct Hall as [|c r Hc Hr]; [contradiction|].
  simpl. rewrite Hc. f_equal. eapply Promise_all_state; eassumption.
Qed.

(** With [opts.all], every callback reads the key [wallet-undefined]. *)
Lemma loadWallet_all_reads_undefined (E : Env) (o : option SetupOptions)
      (rest : list SetupOptions) (m : Manager) (n : option string)
      (l : list (option string)) :
  wallets (_store m) = Some (n :: l) ->
  records (_store m) !! "wallet-undefined" = None ->
  loadWallet E o (mkSetupOptions true None :: rest) m = (Throw TypeError, m).
Proof.
  intros Hidx Hrec.
  unfold loadWallet, _setupWallet, getWalletList. run_monad. simpl.
  rewrite Hidx.
  rewrite (Promise_all_failing _ TypeError); [reflexivity|discriminate|].
  apply Forall_forall. intros c Hc.
  apply list_elem_of_In, in_map_iff in Hc. destruct Hc as [x [<- _]].
  unfold getWallet. run_monad.
  change (wallet_key None) with "wallet-undefined". rewrite Hrec. reflexivity.
Qed.

(** C5: with the index ["a"] and the export record of "a" in the store,
    [loadWallet(req, {all: true})] rejects with a TypeError and the
    in-memory map stays empty: the callback reads the record
    [wallet-undefined] instead of [wallet-a] and then dereferences the
    missing result.  Naming a wallet that has no record fails with "cant
    find wallet data". *)
Theorem loadWallet_all_loads_nothing :
  let m := manager ["a"] [] in
  records (_store m) !! "wallet-a" = Some (export_of "a")
  /\ loadWallet env None [mkSetupOptions true None] m = (Throw TypeError, m)
  /\ _wallets m = ∅
  /\ loadWallet env None [mkSetupOptions false (Some "b")] m
     = (Throw (Error "cant find wallet data"), m).
Proof. repeat split; vm_compute; reflexivity. Qed.

(** ** Creating a wallet *)

(** A name that is materialized is rejected before anything is touched. *)
Lemma createWallet_materialized (E : Env) (req : Request) (opts : CreateOptions)
      (m : Manager) (w : Facade) :
  _wallets m !! created_name opts = Some w ->
  createWallet E req opts m = (Throw (Error "wallet already exists with name"), m).
Proof.
  intros Hw. unfold createWallet. run_monad. fold (created_name opts).
  rewrite Hw. reflexivity.
Qed.

(** A name that is only in the index is rejected by [addWallet], after the
    new facade was put into the in-memory map. *)
Lemma createWallet_indexed_only (E : Env) (req : Request) (opts : CreateOptions)
      (m : Manager) (w : Facade) (e : WalletExport) :
  _wallets m !! created_name opts = None ->
  walletLoader E (FromOptions (created_name opts) (created_path opts m) (opts_req opts))
    (_store_path m) = Ok w ->
  exportWallet w = Ok e ->
  includes (exp_name e) (default [] (wallets (_store m))) = true ->
  createWallet E req opts m
  = (Throw (Error "wallet already exists"),
     set_wallets (<[walletName w := w]> (_wallets m)) m).
Proof.
  intros Hw Hload Hexp Hinc. unfold createWallet. run_monad.
  fold (created_name opts). fold (created_path opts m). rewrite Hw.
  unfold _runWalletLoader. run_monad. rewrite Hload. rewrite Hexp.
  unfold addWallet, getWalletList. run_monad. simpl. rewrite Hinc. reflexivity.
Qed.

(** C2: with the index ["a"] and nothing materialized, [createWallet] of
    "a" fails with "wallet already exists" and leaves the store as it was,
    but the in-memory map, empty before the call, now holds the facade the
    loader built for "a". *)
Theorem createWallet_failure_leaves_facade :
  let m := manager ["a"] [] in
  let r := createWallet env (request "" "" None None VUndef None)
             (mkCreateOptions (Some "a") None None) m in
  fst r = Throw (Error "wallet already exists")
  /\ classify (Error "wallet already exists") = AlreadyExists
  /\ _store (snd r) = _store m
  /\ _wallets m !! "a" = None
  /\ _wallets (snd r) !! "a" = Some (facade "a").
Proof. repeat split; vm_compute; reflexivity. Qed.

(** ** Event forwarding *)

(** The handler of an explicit subscription swallows what [notify] throws. *)
Lemma eventHandler_swallows (E : Env) (req : Request) (k : string) (args : list value) :
  eventHandler E req k args = None.
Proof. unfold eventHandler. destruct (forward E req k args); reflexivity. Qed.

(** The bootstrap handler lets it through. *)
Lemma bootstrapHandler_rethrows (E : Env) (req : Request) (k : string)
      (args : list value) :
  bootstrapHandler E req k args = forward E req k args.
Proof. reflexivity. Qed.

(** An emitter whose listeners all come from [_subscribe] never sees a
    notification failure. *)
Lemma emit_with_eventHandlers (E : Env) (e : eid) (ev : string) (args : list value)
      (m : Manager) :
  Forall (fun x => cl_code (snd x) = EventHandler) (EventEmitter.attached e m) ->
  exists b, emit E e ev args m = (Ok b, m).
Proof.
  intros Hall. unfold emit.
  assert (Hnone : call_listeners E ev (EventEmitter.attached e m) args = None).
  { induction Hall as [|[ev' c] r Hc Hr IH]; simpl; [reflexivity|].
    destruct (String.eqb ev ev'); [|exact IH].
    unfold apply_closure. simpl in Hc. rewrite Hc, eventHandler_swallows. exact IH. }
  rewrite Hnone. eexists; reflexivity.
Qed.

(** C4: a caller whose [notify] throws creates the wallet "w" with its
    request as bootstrap context; the asset [btc] then carries a bootstrap
    listener for "new-tx", and emitting "new-tx" on the asset throws the
    caller's error out of [emit].  The same caller subscribing explicitly
    (method "on") on a manager without bootstrap listeners gets a handler
    that swallows the error: [emit] returns. *)
Theorem bootstrap_handler_lets_notify_failure_through :
  let caller := request "w" "pay" (Some "btc") (Some "on") (VArr [VStr "new-tx"]) (Some 1) in
  let created := createWallet env caller (mkCreateOptions (Some "w") None (Some caller))
                   (manager [] []) in
  let subscribed := callWallet env caller (manager ["w"] ["w"]) in
  deliver env 1 "w:pay-btc:new-tx" [VStr "tx"] = Some (Upstream 1)
  /\ fst created = Ok (export_of "w")
  /\ listeners (snd created) !! 1
     = Some [("new-tx", mkClosure 0 BootstrapHandler caller "w:pay-btc:new-tx")]
  /\ fst (emit env 1 "new-tx" [VStr "tx"] (snd created)) = Throw (Upstream 1)
  /\ fst subscribed = Ok (VStr "w:pay-btc:new-tx")
  /\ fst (emit env 1 "new-tx" [VStr "tx"] (snd subscribed)) = Ok true.
Proof. repeat split; vm_compute; reflexivity. Qed.

(** ** Dispatch *)

Lemma truthy_node (o : jsobj) c em ks ms : o = JNode c em ks ms -> truthy_obj o = true.
Proof. intros ->. reflexivity. Qed.

Lemma truthy_prop (o : jsobj) (k : string) : truthy_obj (prop o k) = true -> truthy_obj o = true.
Proof. destruct o; [discriminate|reflexivity]. Qed.

Lemma is_str_false (o : option string) (s : string) : o <> Some s -> is_str o s = false.
Proof.
  destruct o as [x|]; simpl; [|reflexivity].
  intros Hne. apply String.eqb_neq. congruence.
Qed.

Lemma eqb_false (a b : string) : a <> b -> String.eqb a b = false.
Proof. apply String.eqb_neq. Qed.

(** The steps of [callWallet] up to the resource, for a materialized wallet
    and a request that is not a wallet-level subscription. *)
Lemma callWallet_resource_path (E : Env) (req : Request) (m : Manager) (w : Facade) :
  _wallets m !! name req = Some w ->
  namespace req <> "on" -> namespace req <> "off" ->
  named (resource req) = true ->
  truthy_obj (prop (self w) (namespace req)) = true ->
  callWallet E req m
  = (let res := prop (prop (self w) (namespace req)) (str_of (resource req)) in
     if negb (truthy_obj res) then throw (Error "wallet doesnt have this resource")
     else if is_str (method req) "on" then VStr <$> _subscribe req w "resource"
     else if is_str (method req) "off" then VStr <$> _unsubscribe req w "resource"
     else
       let mth := prop res (str_of (method req)) in
       if negb (truthy_obj mth)
       then throw (Error "wallet resource does not have that method name")
       else call E mth (arguments req)) m.
Proof.
  intros Hw Hon Hoff Hres Hns.
  unfold callWallet. run_monad. rewrite Hw.
  rewrite Hns, (eqb_false _ _ Hon), (eqb_false _ _ Hoff), Hres. simpl.
  destruct (truthy_obj (prop (prop (self w) (namespace req)) (str_of (resource req))));
    simpl; [|reflexivity].
  destruct (is_str (method req) "on"); [reflexivity|].
  destruct (is_str (method req) "off"); [reflexivity|].
  destruct (truthy_obj (prop _ (str_of (method req)))); simpl; [|reflexivity].
  unfold arguments. destruct (params req); reflexivity.
Qed.

(** C1 fails as stated: the wallet "w" is materialized and its facade
    exposes [pay.btc.on] as a callable, yet [callWallet] with method "on"
    and params ["new-tx"] does not call [on] with the params: it attaches a
    new handler and resolves with the subscription key, whereas [on] called
    with the params alone throws; no call through the dispatcher is made. *)
Lemma callWallet_method_on_is_a_subscription :
  let m := manager ["w"] ["w"] in
  let req := request "w" "pay" (Some "btc") (Some "on") (VArr [VStr "new-tx"]) (Some 0) in
  _wallets m !! "w" = Some (facade "w")
  /\ prop (prop (prop (self (facade "w")) "pay") "btc") "on"
     = JNode (Some (EmitterOn 1)) None None []
  /\ apply env (EmitterOn 1) (arguments req) = Throw TypeError
  /\ fst (callWallet env req m) = Ok (VStr "w:pay-btc:new-tx")
  /\ fst (callWallet env req m) <> apply env (EmitterOn 1) (arguments req)
  /\ invoked (snd (callWallet env req m)) = [].
Proof. repeat split; try (vm_compute; reflexivity). vm_compute. discriminate. Qed.

(** C1, amended: for a materialized wallet and a request that names a
    namespace other than "on"/"off", a non-empty resource and a method
    other than "on"/"off", if the facade exposes a callable under that
    path then [callWallet] calls it once, with the params spread when they
    are an array and with the params as single argument otherwise, and its
    outcome (value or failure) is the outcome of that call. *)
Theorem callWallet_invokes_method (E : Env) (req : Request) (m : Manager) (w : Facade)
        (c : callee) (em : option eid) (ks : option (list string))
        (ms : list (string * jsobj)) :
  _wallets m !! name req = Some w ->
  namespace req <> "on" -> namespace req <> "off" ->
  named (resource req) = true ->
  method req <> Some "on" -> method req <> Some "off" ->
  prop (prop (prop (self w) (namespace req)) (str_of (resource req))) (str_of (method req))
  = JNode (Some c) em ks ms ->
  callWallet E req m
  = (apply E c (arguments req), set_invoked (invoked m ++ [(c, arguments req)]) m).
Proof.
  intros Hw Hon Hoff Hres Hmon Hmoff Hm.
  pose proof (truthy_node _ _ _ _ _ Hm) as Ht.
  pose proof (truthy_prop _ _ Ht) as Htr.
  pose proof (truthy_prop _ _ Htr) as Htn.
  rewrite (callWallet_resource_path E req m w Hw Hon Hoff Hres Htn).
  cbn zeta. rewrite Htr, (is_str_false _ _ Hmon), (is_str_false _ _ Hmoff), Ht, Hm.
  reflexivity.
Qed.

Lemma callWallet_invokes_method_witness :
  callWallet env (request "w" "pay" (Some "btc") (Some "getBalance") (VArr []) None)
    (manager ["w"] ["w"])
  = (Ok (VNum 42),
     set_invoked [(External getBalance, [])] (manager ["w"] ["w"])).
Proof.
  apply (callWallet_invokes_method env
           (request "w" "pay" (Some "btc") (Some "getBalance") (VArr []) None)
           (manager ["w"] ["w"]) (facade "w") (External getBalance) None None []);
    try discriminate; vm_compute; reflexivity.
Defined.

(** C7 fails as stated: the facade of "w" exposes the namespace "on" (it is
    an emitter) and "on" has no member "btc", yet [callWallet] naming
    namespace "on" and resource "btc" resolves with a subscription key
    instead of failing with "wallet doesnt have this resource". *)
Lemma callWallet_namespace_on_skips_resource_check :
  let m := manager ["w"] ["w"] in
  let req := request "w" "on" (Some "btc") None (VArr [VStr "new-tx"]) (Some 0) in
  _wallets m !! "w" = Some (facade "w")
  /\ truthy_obj (prop (self (facade "w")) "on") = true
  /\ truthy_obj (prop (prop (self (facade "w")) "on") "btc") = false
  /\ fst (callWallet env req m) = Ok (VStr "w:new-tx")
  /\ fst (callWallet env req m) <> Throw (Error "wallet doesnt have this resource").
Proof. repeat split; try (vm_compute; reflexivity). vm_compute. discriminate. Qed.

(** C7, amended: for a materialized wallet and a request whose namespace is
    exposed and is neither "on" nor "off" and whose resource name is not
    empty: if the namespace has no such resource, [callWallet] fails with
    "wallet doesnt have this resource" (InvalidResource); if it has the
    resource and the method, other than "on"/"off", is not on it,
    [callWallet] fails with "wallet resource does not have that method
    name" (InvalidMethod).  In both cases the manager is left as it was, so
    nothing was invoked. *)
Theorem callWallet_rejects_unknown_path (E : Env) (req : Request) (m : Manager) (w : Facade) :
  _wallets m !! name req = Some w ->
  namespace req <> "on" -> namespace req <> "off" ->
  named (resource req) = true ->
  truthy_obj (prop (self w) (namespace req)) = true ->
  (truthy_obj (prop (prop (self w) (namespace req)) (str_of (resource req))) = false ->
   callWallet E req m = (Throw (Error "wallet doesnt have this resource"), m))
  /\ (truthy_obj (prop (prop (self w) (namespace req)) (str_of (resource req))) = true ->
      method req <> Some "on" -> method req <> Some "off" ->
      truthy_obj (prop (prop (prop (self w) (namespace req)) (str_of (resource req)))
                    (str_of (method req))) = false ->
      callWallet E req m
      = (Throw (Error "wallet resource does not have that method name"), m))
  /\ classify (Error "wallet doesnt have this resource") = InvalidResource
  /\ classify (Error "wallet resource does not have that method name") = InvalidMethod.
Proof.
  intros Hw Hon Hoff Hres Hns.
  rewrite (callWallet_resource_path E req m w Hw Hon Hoff Hres Hns). cbn zeta.
  repeat split.
  - intros ->. reflexivity.
  - intros -> Hmon Hmoff ->.
    rewrite (is_str_false _ _ Hmon), (is_str_false _ _ Hmoff). reflexivity.
Qed.

Lemma callWallet_rejects_unknown_path_witness :
  callWallet env (request "w" "pay" (Some "eth") (Some "getBalance") (VArr []) None)
    (manager ["w"] ["w"])
  = (Throw (Error "wallet doesnt have this resource"), manager ["w"] ["w"])
  /\ callWallet env (request "w" "pay" (Some "btc") (Some "send") (VArr []) None)
       (manager ["w"] ["w"])
     = (Throw (Error "wallet resource does not have that method name"), manager ["w"] ["w"]).
Proof.
  split.
  - apply (callWallet_rejects_unknown_path env
             (request "w" "pay" (Some "eth") (Some "getBalance") (VArr []) None)
             (manager ["w"] ["w"]) (facade "w"));
      try discriminate; vm_compute; reflexivity.
  - apply (callWallet_rejects_unknown_path env
             (request "w" "pay" (Some "btc") (Some "send") (VArr []) None)
             (manager ["w"] ["w"]) (facade "w"));
      try discriminate; vm_compute; reflexivity.
Defined.

(** ** Subscriptions *)

Lemma prefix_app (p s : string) : String.prefix p (p +:+ s) = true.
Proof.
  induction p as [|a p IH]; simpl; [destruct s; reflexivity|].
  destruct (Ascii.ascii_dec a a); [exact IH|contradiction].
Qed.

Lemma handler_missing_is_NotFound (k : string) :
  classify (Error ("handler does not exist " +:+ k)) = NotFound.
Proof.
  unfold classify, starts.
  change (String.prefix "wallet already exists" ("handler does not exist " +:+ k)) with false.
  change (String.prefix "Token already exists " ("handler does not exist " +:+ k)) with false.
  change (String.prefix "cant find wallet data" ("handler does not exist " +:+ k)) with false.
  change (String.prefix "Wallet with name " ("handler does not exist " +:+ k)) with false.
  rewrite prefix_app. reflexivity.
Qed.

Lemma _subscribe_ok (req : Request) (w : Facade) (opts : string) (m : Manager) (e : eid)
      (eventName : value) (rest : list value) :
  params req = VArr (eventName :: rest) ->
  truthy eventName = true ->
  opts = "wallet" \/ opts = "resource" ->
  emitter_of (target_of (req, w, opts)) = Some e ->
  Z.of_nat (size (_subs m)) <> MAX_SUB_SIZE ->
  exists h,
    cl_code h = EventHandler
    /\ _subscribe req w opts m
       = (Ok (key_of (req, w, opts)),
          subscribed m e (to_str eventName) (key_of (req, w, opts)) h).
Proof.
  intros Hp Ht Hopts Hem Hsize.
  unfold _subscribe, _getEventName, key_of, target_of in *. rewrite Hp in *.
  run_monad. cbn [hd tl]. rewrite Ht. run_monad.
  apply Z.eqb_neq in Hsize. rewrite Hsize.
  destruct Hopts as [-> | ->]; cbn [String.eqb Ascii.eqb Bool.eqb] in *.
  - destruct (self w) as [|c em ks ms]; [discriminate|]. simpl in Hem. subst em.
    unfold closure, js_on, EventEmitter.on. run_monad.
    eexists. split; [|reflexivity]. reflexivity.
  - cbn [name namespace resource] in *.
    destruct (prop (prop (self w) (namespace req)) (str_of (resource req)))
      as [|c em ks ms]; [discriminate|]. simpl in Hem. subst em.
    unfold closure, js_on, EventEmitter.on. run_monad.
    eexists. split; [|reflexivity]. reflexivity.
Qed.

Lemma _subscribe_full (req : Request) (w : Facade) (opts : string) (m : Manager) :
  names_event req = true ->
  Z.of_nat (size (_subs m)) = MAX_SUB_SIZE ->
  _subscribe req w opts m = (Throw (Error "memory leak: too many subscriptions"), m).
Proof.
  intros Hn Hsize. unfold names_event in Hn.
  unfold _subscribe, _getEventName.
  destruct (params req) as [| | | | |l|]; try discriminate.
  destruct l as [|eventName rest]; [discriminate|].
  run_monad. cbn [hd tl]. rewrite Hn. run_monad.
  apply Z.eqb_eq in Hsize. rewrite Hsize. reflexivity.
Qed.

Lemma subscribable_inv (req : Request) (w : Facade) (opts : string) :
  subscribable (req, w, opts) = true ->
  (exists eventName rest, params req = VArr (eventName :: rest) /\ truthy eventName = true)
  /\ (opts = "wallet" \/ opts = "resource")
  /\ exists e, emitter_of (target_of (req, w, opts)) = Some e.
Proof.
  unfold subscribable, names_event. intros H.
  apply andb_prop in H as [H Hem]. apply andb_prop in H as [Hn Ho].
  repeat split.
  - destruct (params req) as [| | | | |l|]; try discriminate.
    destruct l as [|eventName rest]; [discriminate|]. eauto.
  - apply orb_prop in Ho as [Ho|Ho]; apply String.eqb_eq in Ho; auto.
  - apply bool_decide_eq_true_1 in Hem. destruct Hem as [e He]. eauto.
Qed.

(** Subscriptions with distinct, unused keys all succeed while there is
    room, and each adds one entry. *)
Lemma subscribe_all_ok (l : list subscription) :
  forall m : Manager,
    Forall (fun s => subscribable s = true) l ->
    NoDup (map key_of l) ->
    (forall s, In s l -> _subs m !! key_of s = None) ->
    (Z.of_nat (size (_subs m) + length l) <= MAX_SUB_SIZE)%Z ->
    fst (subscribe_all l m) = Ok (map key_of l)
    /\ size (_subs (snd (subscribe_all l m))) = size (_subs m) + length l
    /\ _wallets (snd (subscribe_all l m)) = _wallets m
    /\ _store (snd (subscribe_all l m)) = _store m.
Proof.
  induction l as [|[[req w] opts] r IH]; intros m Hsub Hnd Hfresh Hroom.
  - simpl. rewrite Nat.add_0_r. auto.
  - inversion Hsub as [|? ? Hs Hr]; subst.
    apply NoDup_cons in Hnd as [Hnotin Hnd]. fold (map key_of r) in Hnotin, Hnd.
    destruct (subscribable_inv _ _ _ Hs) as [[eventName [rest [Hp Ht]]] [Ho [e He]]].
    assert (Hsize : Z.of_nat (size (_subs m)) <> MAX_SUB_SIZE).
    { simpl length in Hroom. lia. }
    destruct (_subscribe_ok req w opts m e eventName rest Hp Ht Ho He Hsize)
      as [h [_ Hstep]].
    cbn [subscribe_all]. run_monad. rewrite Hstep.
    set (m1 := subscribed m e (to_str eventName) (key_of (req, w, opts)) h).
    assert (Hsz1 : size (_subs m1) = S (size (_subs m))).
    { unfold m1, subscribed. simpl. apply map_size_insert_None.
      apply Hfresh. left. reflexivity. }
    destruct (IH m1 Hr Hnd) as [Hres [Hsz [Hw Hst]]].
    + intros s Hin. unfold m1, subscribed. simpl.
      rewrite lookup_insert_ne.
      * apply Hfresh. right. exact Hin.
      * intros Heq. apply Hnotin. rewrite Heq.
        apply list_elem_of_In, in_map. exact Hin.
    + rewrite Hsz1. simpl length in Hroom. lia.
    + destruct (subscribe_all r m1) as [[ks|err] m2] eqn:Hrun; simpl in Hres; [|discriminate].
      injection Hres as ->. simpl in *.
      repeat split; [lia|exact Hw|exact Hst].
Qed.

(** C8: from an empty subscription map, a sequence of as many well-formed
    subscriptions with pairwise distinct keys as [MAX_SUB_SIZE] succeeds
    entirely, each returning its key; the map is then at capacity, and any
    further subscription that names an event fails with "memory leak: too
    many subscriptions" (SubscriptionLimitExceeded), the manager (map and
    listeners) being left as it was. *)
Theorem subscriptions_up_to_capacity (l : list subscription) (m : Manager)
        (next : Request) (w : Facade) (opts : string) :
  _subs m = ∅ ->
  Forall (fun s => subscribable s = true) l ->
  NoDup (map key_of l) ->
  Z.of_nat (length l) = MAX_SUB_SIZE ->
  names_event next = true ->
  fst (subscribe_all l m) = Ok (map key_of l)
  /\ Z.of_nat (size (_subs (snd (subscribe_all l m)))) = MAX_SUB_SIZE
  /\ _subscribe next w opts (snd (subscribe_all l m))
     = (Throw (Error "memory leak: too many subscriptions"), snd (subscribe_all l m))
  /\ classify (Error "memory leak: too many subscriptions") = SubscriptionLimitExceeded.
Proof.
  intros Hempty Hsub Hnd Hlen Hnext.
  destruct (subscribe_all_ok l m Hsub Hnd) as [Hres [Hsz _]].
  - intros s _. rewrite Hempty. apply lookup_empty.
  - rewrite Hempty, map_size_empty. simpl. lia.
  - rewrite Hempty, map_size_empty in Hsz. simpl in Hsz.
    assert (Hfull : Z.of_nat (size (_subs (snd (subscribe_all l m)))) = MAX_SUB_SIZE)
      by (rewrite Hsz; exact Hlen).
    repeat split; [exact Hres|exact Hfull|].
    apply _subscribe_full; assumption.
Qed.

Lemma numbered_keys_distinct (n : nat) : NoDup (map key_of (map numbered (seq 0 n))).
Proof.
  rewrite map_map.
  assert (Hinj : Inj eq eq (fun i => key_of (numbered i))).
  { intros i j Hij. unfold key_of, numbered in Hij. cbn in Hij.
    unfold wallet_key_of in Hij. cbn in Hij.
    injection Hij as Hij. apply pretty_nat_inj. exact Hij. }
  apply (NoDup_fmap_2 (fun i => key_of (numbered i))). apply NoDup_seq.
Qed.

Lemma subscriptions_up_to_capacity_witness :
  fst (subscribe_all full_house (manager ["w"] ["w"])) = Ok (map key_of full_house)
  /\ Z.of_nat (size (_subs (snd (subscribe_all full_house (manager ["w"] ["w"])))))
     = MAX_SUB_SIZE
  /\ _subscribe (request "w" "on" None None (VArr [VStr "new-tx"]) (Some 0))
       (facade "w") "wallet" (snd (subscribe_all full_house (manager ["w"] ["w"])))
     = (Throw (Error "memory leak: too many subscriptions"),
        snd (subscribe_all full_house (manager ["w"] ["w"])))
  /\ classify (Error "memory leak: too many subscriptions") = SubscriptionLimitExceeded.
Proof.
  apply (subscriptions_up_to_capacity full_house (manager ["w"] ["w"])
           (request "w" "on" None None (VArr [VStr "new-tx"]) (Some 0))
           (facade "w") "wallet").
  - reflexivity.
  - apply Forall_forall. intros s Hs.
    apply list_elem_of_In, in_map_iff in Hs. destruct Hs as [i [<- _]]. reflexivity.
  - apply numbered_keys_distinct.
  - unfold full_house. rewrite length_map, length_seq. reflexivity.
  - reflexivity.
Defined.

Lemma callWallet_on (E : Env) (req : Request) (m : Manager) (w : Facade) (e : eid) :
  _wallets m !! name req = Some w ->
  namespace req = "on" ->
  emitter_of (self w) = Some e ->
  callWallet E req m = (VStr <$> _subscribe req w "wallet") m.
Proof.
  intros Hw Hns He. unfold callWallet. run_monad. rewrite Hw, Hns.
  destruct (self w) as [|c em ks ms]; [discriminate|]. simpl in He. subst em.
  reflexivity.
Qed.

Lemma callWallet_off (E : Env) (req : Request) (m : Manager) (w : Facade) (e : eid) :
  _wallets m !! name req = Some w ->
  namespace req = "off" ->
  emitter_of (self w) = Some e ->
  callWallet E req m = (VStr <$> _unsubscribe req w "wallet") m.
Proof.
  intros Hw Hns He. unfold callWallet. run_monad. rewrite Hw, Hns.
  destruct (self w) as [|c em ks ms]; [discriminate|]. simpl in He. subst em.
  reflexivity.
Qed.

Lemma _unsubscribe_wallet_ok (req : Request) (w : Facade) (m : Manager) (e : eid)
      (eventName : value) (rest : list value) (h : Closure) :
  params req = VArr (eventName :: rest) ->
  truthy eventName = true ->
  emitter_of (self w) = Some e ->
  _subs m !! wallet_key_of req eventName = Some h ->
  _unsubscribe req w "wallet" m
  = (Ok (wallet_key_of req eventName),
     unsubscribed m e (to_str eventName) (wallet_key_of req eventName) h).
Proof.
  intros Hp Ht He Hh. unfold _unsubscribe, _getEventName. rewrite Hp.
  run_monad. cbn [hd tl]. rewrite Ht. run_monad. cbn [String.eqb Ascii.eqb Bool.eqb].
  unfold _getEventHandler. run_monad.
  change (wallet_key_of (mkRequest (name req) (namespace req) (resource req) (method req)
                           (VArr rest) (notify req)) eventName)
    with (wallet_key_of req eventName).
  rewrite Hh.
  destruct (self w) as [|c em ks ms]; [discriminate|]. simpl in He. subst em.
  reflexivity.
Qed.

Lemma _unsubscribe_wallet_missing (req : Request) (w : Facade) (m : Manager)
      (eventName : value) (rest : list value) :
  params req = VArr (eventName :: rest) ->
  truthy eventName = true ->
  _subs m !! wallet_key_of req eventName = None ->
  _unsubscribe req w "wallet" m
  = (Throw (Error ("handler does not exist " +:+ wallet_key_of req eventName)), m).
Proof.
  intros Hp Ht Hh. unfold _unsubscribe, _getEventName. rewrite Hp.
  run_monad. cbn [hd tl]. rewrite Ht. run_monad. cbn [String.eqb Ascii.eqb Bool.eqb].
  unfold _getEventHandler. run_monad.
  change (wallet_key_of (mkRequest (name req) (namespace req) (resource req) (method req)
                           (VArr rest) (notify req)) eventName)
    with (wallet_key_of req eventName).
  rewrite Hh. reflexivity.
Qed.

Lemma remove_last_attached (ev : string) (h : Closure) (l : list (string * Closure)) :
  rev (EventEmitter.remove_first ev h (rev (l ++ [(ev, h)]))) = l.
Proof.
  rewrite rev_app_distr. simpl. unfold EventEmitter.same. simpl.
  rewrite String.eqb_refl, Nat.eqb_refl. simpl. apply rev_involutive.
Qed.

Lemma nonempty_truthy (s : string) : s <> "" -> truthy (VStr s) = true.
Proof. intros Hs. simpl. rewrite (eqb_false _ _ Hs). reflexivity. Qed.

(** C9 fails as stated: with "w:new-tx" already registered (state [prior]),
    subscribing "w" to "new-tx" again returns the key and the following
    unsubscribe returns it too, but the map then has no entry under the
    key, whereas it had one before the subscribe: the prior state is not
    restored. *)
Lemma resubscribe_then_unsubscribe_loses_entry :
  let sub := request "w" "on" None None (VArr [VStr "new-tx"]) (Some 0) in
  let unsub := request "w" "off" None None (VArr [VStr "new-tx"]) (Some 0) in
  let prior := snd (callWallet env sub (manager ["w"] ["w"])) in
  let after_subscribe := callWallet env sub prior in
  let after_unsubscribe := callWallet env unsub (snd after_subscribe) in
  _subs prior !! "w:new-tx" = Some (mkClosure 0 EventHandler
                                     (request "w" "on" None None (VArr []) (Some 0))
                                     "w:new-tx")
  /\ fst after_subscribe = Ok (VStr "w:new-tx")
  /\ fst after_unsubscribe = Ok (VStr "w:new-tx")
  /\ _subs (snd after_unsubscribe) !! "w:new-tx" = None
  /\ _subs (snd after_unsubscribe) <> _subs prior.
Proof.
  repeat split; try (vm_compute; reflexivity).
  intros Heq. apply (f_equal (fun s => s !! "w:new-tx")) in Heq.
  vm_compute in Heq. discriminate.
Qed.

(** C9, amended: for a materialized wallet [n] that is an emitter, a
    non-empty event name [ev] and a subscription map below capacity, the
    wallet-level subscribe (namespace "on", params [ev]) returns the key
    "n:ev" and stores a handler under it; the following wallet-level
    unsubscribe (namespace "off", params [ev]) returns the key, removes the
    entry and detaches the handler, which gives back the prior map when the
    key was not registered before the subscribe (an entry that was there
    before is gone as well); unsubscribing a key that has no handler fails
    with "handler does not exist n:ev" (NotFound) and changes nothing. *)
Theorem subscribe_then_unsubscribe (E : Env) (n ev : string) (w : Facade) (e : eid)
        (m : Manager) (res mth res' mth' : option string) (ch ch' : option chan) :
  _wallets m !! n = Some w ->
  emitter_of (self w) = Some e ->
  ev <> "" ->
  Z.of_nat (size (_subs m)) <> MAX_SUB_SIZE ->
  let key := n +:+ ":" +:+ ev in
  let sub := mkRequest n "on" res mth (VArr [VStr ev]) ch in
  let unsub := mkRequest n "off" res' mth' (VArr [VStr ev]) ch' in
  let r1 := callWallet E sub m in
  let r2 := callWallet E unsub (snd r1) in
  fst r1 = Ok (VStr key)
  /\ (exists h, cl_code h = EventHandler /\ _subs (snd r1) = <[key := h]> (_subs m))
  /\ fst r2 = Ok (VStr key)
  /\ _subs (snd r2) = delete key (_subs m)
  /\ EventEmitter.attached e (snd r2) = EventEmitter.attached e m
  /\ (_subs m !! key = None -> _subs (snd r2) = _subs m)
  /\ (_subs m !! key = None ->
      callWallet E unsub m = (Throw (Error ("handler does not exist " +:+ key)), m))
  /\ classify (Error ("handler does not exist " +:+ key)) = NotFound.
Proof.
  intros Hw He Hev Hsize key sub unsub r1 r2.
  pose proof (nonempty_truthy ev Hev) as Ht.
  destruct (_subscribe_ok sub w "wallet" m e (VStr ev) [] eq_refl Ht (or_introl eq_refl))
    as [h [Hcode Hstep]]; [exact He|exact Hsize|].
  change (key_of (sub, w, "wallet")) with key in Hstep.
  assert (Hr1 : r1 = (Ok (VStr key), subscribed m e ev key h)).
  { unfold r1. rewrite (callWallet_on E sub m w e Hw eq_refl He).
    run_monad. rewrite Hstep. reflexivity. }
  assert (Hr2 : r2 = (Ok (VStr key), unsubscribed (subscribed m e ev key h) e ev key h)).
  { unfold r2. rewrite Hr1. cbn [snd].
    rewrite (callWallet_off E unsub (subscribed m e ev key h) w e Hw eq_refl He).
    run_monad.
    rewrite (_unsubscribe_wallet_ok unsub w (subscribed m e ev key h) e (VStr ev) [] h
               eq_refl Ht He).
    - reflexivity.
    - change (wallet_key_of unsub (VStr ev)) with key.
      unfold subscribed. simpl. apply lookup_insert_eq. }
  assert (Hsubs2 : _subs (snd r2) = delete key (_subs m)).
  { rewrite Hr2. unfold unsubscribed, subscribed. simpl. apply delete_insert_eq. }
  repeat split.
  - rewrite Hr1. reflexivity.
  - exists h. split; [exact Hcode|]. rewrite Hr1. reflexivity.
  - rewrite Hr2. reflexivity.
  - exact Hsubs2.
  - rewrite Hr2. unfold unsubscribed, subscribed, EventEmitter.attached. simpl.
    rewrite !lookup_insert_eq. simpl. apply remove_last_attached.
  - intros Hnone. rewrite Hsubs2. apply delete_id. exact Hnone.
  - intros Hnone. rewrite (callWallet_off E unsub m w e Hw eq_refl He). run_monad.
    rewrite (_unsubscribe_wallet_missing unsub w m (VStr ev) [] eq_refl Ht Hnone).
    reflexivity.
  - apply handler_missing_is_NotFound.
Qed.

Lemma subscribe_then_unsubscribe_witness :
  let m := manager ["w"] ["w"] in
  let sub := mkRequest "w" "on" None None (VArr [VStr "new-tx"]) (Some 0) in
  let unsub := mkRequest "w" "off" None None (VArr [VStr "new-tx"]) (Some 0) in
  fst (callWallet env sub m) = Ok (VStr "w:new-tx")
  /\ fst (callWallet env unsub (snd (callWallet env sub m))) = Ok (VStr "w:new-tx")
  /\ _subs (snd (callWallet env unsub (snd (callWallet env sub m)))) = _subs m
  /\ callWallet env unsub m = (Throw (Error "handler does not exist w:new-tx"), m).
Proof.
  intros m sub unsub.
  assert (Hw : _wallets m !! "w" = Some (facade "w")) by (vm_compute; reflexivity).
  assert (He : emitter_of (self (facade "w")) = Some 0) by reflexivity.
  assert (Hev : "new-tx" <> "") by discriminate.
  assert (Hsize : Z.of_nat (size (_subs m)) <> MAX_SUB_SIZE) by (vm_compute; discriminate).
  assert (Hfree : _subs m !! "w:new-tx" = None) by (vm_compute; reflexivity).
  destruct (subscribe_then_unsubscribe env "w" "new-tx" (facade "w") 0 m
              None None None None (Some 0) (Some 0) Hw He Hev Hsize)
    as [H1 [_ [H3 [_ [_ [H6 [H7 _]]]]]]].
  split; [exact H1|]. split; [exact H3|]. split; [exact (H6 Hfree)|exact (H7 Hfree)].
Defined.

(** ** Bootstrap handlers *)

Lemma same_maps_refl (m : Manager) : same_maps m m.
Proof. repeat split. Qed.

Lemma same_maps_trans (m1 m2 m3 : Manager) :
  same_maps m1 m2 -> same_maps m2 m3 -> same_maps m1 m3.
Proof.
  intros [A1 [B1 [C1 D1]]] [A2 [B2 [C2 D2]]].
  repeat split; congruence.
Qed.

Lemma forEach_same_maps {A : Type} (l : list A) (body : A -> M unit) :
  (forall x m, same_maps m (snd (body x m))) ->
  forall m, same_maps m (snd (forEach l body m)).
Proof.
  intros Hbody. induction l as [|x r IH]; intros m; simpl.
  - apply same_maps_refl.
  - run_monad. pose proof (Hbody x m) as Hx.
    destruct (body x m) as [[[]|err] m1]; simpl in *; [|exact Hx].
    eapply same_maps_trans; [exact Hx|apply IH].
Qed.

Lemma js_on_same_maps (o : jsobj) (ev : string) (c : Closure) (m : Manager) :
  same_maps m (snd (js_on o ev c m)).
Proof.
  destruct o as [|f [e|] ks ms]; simpl; try apply same_maps_refl.
  repeat split.
Qed.

Lemma _subBootstrapEvents_same_maps (E : Env) (w : Facade) (req : Request) (m : Manager) :
  same_maps m (snd (_subBootstrapEvents E w req m)).
Proof.
  unfold _subBootstrapEvents, each.
  destruct (prop (self w) "pay") as [|f em [ks|] ms]; try apply same_maps_refl.
  apply forEach_same_maps. intros k m1.
  apply forEach_same_maps. intros ev m2.
  unfold closure. run_monad.
  eapply same_maps_trans; [|apply js_on_same_maps]. repeat split.
Qed.

(** C10: [_subBootstrapEvents] leaves the subscription map as it is, so its
    size is unchanged; a resource-scoped key "<wallet>:pay-<k>:<ev>" that no
    subscribe registered is still absent after bootstrap, and the request
    {namespace "pay", resource k, method "off", params [ev]} then fails with
    "handler does not exist <key>" (NotFound) and leaves the manager, with
    the listeners bootstrap attached, as it is. *)
Theorem bootstrap_handlers_are_not_subscriptions (E : Env) (w : Facade)
        (caller : Request) (m : Manager) (k ev : string) (ch : option chan) :
  let m' := snd (_subBootstrapEvents E w caller m) in
  let key := walletName w +:+ ":pay-" +:+ k +:+ ":" +:+ ev in
  let unsub := mkRequest (walletName w) "pay" (Some k) (Some "off") (VArr [VStr ev]) ch in
  _wallets m !! walletName w = Some w ->
  truthy_obj (prop (prop (self w) "pay") k) = true ->
  k <> "" -> ev <> "" ->
  _subs m !! key = None ->
  _subs m' = _subs m
  /\ size (_subs m') = size (_subs m)
  /\ _subs m' !! key = None
  /\ callWallet E unsub m' = (Throw (Error ("handler does not exist " +:+ key)), m')
  /\ classify (Error ("handler does not exist " +:+ key)) = NotFound.
Proof.
  intros m' key unsub Hw Hasset Hk Hev Hfree.
  destruct (_subBootstrapEvents_same_maps E w caller m) as [Hsubs [Hwal _]].
  fold m' in Hsubs, Hwal.
  assert (Hfree' : _subs m' !! key = None) by (rewrite Hsubs; exact Hfree).
  repeat split.
  - exact Hsubs.
  - rewrite Hsubs. reflexivity.
  - exact Hfree'.
  - assert (Hw' : _wallets m' !! name unsub = Some w) by (rewrite Hwal; exact Hw).
    rewrite (callWallet_resource_path E unsub m' w Hw').
    + subst unsub. cbn [namespace resource method].
      change (str_of (Some k)) with k.
      change (is_str (Some "off") "on") with false.
      change (is_str (Some "off") "off") with true.
      rewrite Hasset. cbn [negb].
      unfold _unsubscribe, _getEventName. cbn [params]. run_monad. cbn [hd tl].
      rewrite (nonempty_truthy ev Hev). run_monad.
      cbn [String.eqb Ascii.eqb Bool.eqb namespace resource].
      change (str_of (Some k)) with k.
      rewrite Hasset. unfold _getEventHandler. run_monad.
      change (resource_key_of _ (VStr ev)) with key. rewrite Hfree'. reflexivity.
    + discriminate.
    + discriminate.
    + simpl. rewrite (eqb_false _ _ Hk). reflexivity.
    + apply (truthy_prop _ k). exact Hasset.
  - apply handler_missing_is_NotFound.
Qed.

Lemma bootstrap_handlers_are_not_subscriptions_witness :
  let caller := request "w" "pay" (Some "btc") (Some "getBalance") (VArr []) (Some 0) in
  let m := manager ["w"] ["w"] in
  let m' := snd (_subBootstrapEvents env (facade "w") caller m) in
  let unsub := mkRequest "w" "pay" (Some "btc") (Some "off") (VArr [VStr "new-tx"]) (Some 0) in
  listeners m' !! 1
  = Some [("new-tx", mkClosure 0 BootstrapHandler caller "w:pay-btc:new-tx")]
  /\ _subs m' = _subs m
  /\ callWallet env unsub m' = (Throw (Error "handler does not exist w:pay-btc:new-tx"), m').
Proof.
  intros caller m m' unsub.
  split; [vm_compute; reflexivity|].
  destruct (bootstrap_handlers_are_not_subscriptions env (facade "w") caller m
              "btc" "new-tx" (Some 0)) as [H1 [_ [_ [H4 _]]]];
    try discriminate; try (vm_compute; reflexivity).
  split; [exact H1|exact H4].
Defined.

(** ** What the operations leave alone *)

Lemma preserves_ret {A : Type} (P : Manager -> Prop) (a : A) : preserves P (ret a).
Proof. intros m Hm. exact Hm. Qed.

Lemma preserves_throw {A : Type} (P : Manager -> Prop) (e : error) :
  preserves P (@throw A e).
Proof. intros m Hm. exact Hm. Qed.

Lemma preserves_lift {A : Type} (P : Manager -> Prop) (o : outcome A) :
  preserves P (lift o).
Proof. intros m Hm. exact Hm. Qed.

Lemma preserves_get (P : Manager -> Prop) : preserves P get.
Proof. intros m Hm. exact Hm. Qed.

Lemma preserves_bind {A B : Type} (P : Manager -> Prop) (c : M A) (k : A -> M B) :
  preserves P c -> (forall a, preserves P (k a)) -> preserves P (bind c k).
Proof.
  intros Hc Hk m Hm. unfold bind. specialize (Hc m Hm).
  destruct (c m) as [[a|e] m1]; simpl in *; [apply Hk; exact Hc|exact Hc].
Qed.

Lemma preserves_fmap {A B : Type} (P : Manager -> Prop) (f : A -> B) (c : M A) :
  preserves P c -> preserves P (f <$> c).
Proof. intros Hc. apply preserves_bind; [exact Hc|]. intros a. apply preserves_ret. Qed.

Lemma preserves_modify (P : Manager -> Prop) (g : Manager -> Manager) :
  (forall m, P m -> P (g m)) -> preserves P (modify g).
Proof. intros Hg m Hm. apply Hg. exact Hm. Qed.

Lemma preserves_forEach {A : Type} (P : Manager -> Prop) (l : list A) (body : A -> M unit) :
  (forall x, preserves P (body x)) -> preserves P (forEach l body).
Proof.
  intros Hbody. induction l as [|x r IH]; simpl.
  - apply preserves_ret.
  - apply preserves_bind; [apply Hbody|]. intros _. exact IH.
Qed.

Lemma preserves_Promise_all {A : Type} (P : Manager -> Prop) (cs : list (M A)) :
  Forall (preserves P) cs -> preserves P (Promise_all cs).
Proof.
  induction 1 as [|c r Hc Hr IH]; simpl.
  - apply preserves_ret.
  - intros m Hm. specialize (Hc m Hm).
    destruct (c m) as [[a|e] m1]; simpl in *.
    + specialize (IH m1 Hc). destruct (Promise_all r m1) as [[l|e] m2]; exact IH.
    + apply IH. exact Hc.
Qed.

Lemma reads_maps_same (P : Manager -> Prop) (m m' : Manager) :
  reads_maps P -> same_maps m m' -> P m -> P m'.
Proof. intros HP [Hs [Hw [Hst _]]]. apply HP; assumption. Qed.

Lemma preserves_on (P : Manager -> Prop) (e : eid) (ev : string) (c : Closure) :
  reads_maps P -> preserves P (EventEmitter.on e ev c).
Proof. intros HP m. apply HP; reflexivity. Qed.

Lemma preserves_off (P : Manager -> Prop) (e : eid) (ev : string) (c : Closure) :
  reads_maps P -> preserves P (EventEmitter.off e ev c).
Proof. intros HP m. apply HP; reflexivity. Qed.

Lemma preserves_js_on (P : Manager -> Prop) (o : jsobj) (ev : string) (c : Closure) :
  reads_maps P -> preserves P (js_on o ev c).
Proof.
  intros HP. destruct o as [|f [e|] ks ms]; simpl;
    [apply preserves_throw|apply preserves_on; exact HP|apply preserves_throw].
Qed.

Lemma preserves_js_off (P : Manager -> Prop) (o : jsobj) (ev : string) (c : Closure) :
  reads_maps P -> preserves P (js_off o ev c).
Proof.
  intros HP. destruct o as [|f [e|] ks ms]; simpl;
    [apply preserves_throw|apply preserves_off; exact HP|apply preserves_throw].
Qed.

Lemma preserves_closure (P : Manager -> Prop) (c : code) (req : Request) (k : string) :
  reads_maps P -> preserves P (closure c req k).
Proof. intros HP m. apply HP; reflexivity. Qed.

Lemma preserves_call (E : Env) (P : Manager -> Prop) (o : jsobj) (args : list value) :
  reads_maps P -> preserves P (call E o args).
Proof.
  intros HP. destruct o as [|[c|] em ks ms]; simpl; try apply preserves_throw.
  intros m. apply HP; reflexivity.
Qed.

Lemma preserves_subBootstrapEvents (E : Env) (P : Manager -> Prop) (w : Facade)
      (req : Request) :
  reads_maps P -> preserves P (_subBootstrapEvents E w req).
Proof.
  intros HP m. apply reads_maps_same; [exact HP|].
  apply _subBootstrapEvents_same_maps.
Qed.

(** Steps through the monadic structure of an operation. *)
Ltac step_preserves :=
  repeat first
    [ apply preserves_ret | apply preserves_throw | apply preserves_lift
    | apply preserves_get
    | apply preserves_fmap
    | apply preserves_bind; [|intros ?]
    | match goal with
      | |- preserves _ (match ?x with _ => _ end) => destruct x
      end ].

(** ** The two outcomes of a subscription call *)

(** [_subscribe] either throws, having attached and registered nothing, or
    returns a key, having attached one listener and written one entry. *)
Lemma _subscribe_cases (req : Request) (w : Facade) (opts : string) (m : Manager) :
  (exists err,
      fst (_subscribe req w opts m) = Throw err
      /\ same_maps m (snd (_subscribe req w opts m))
      /\ listeners (snd (_subscribe req w opts m)) = listeners m)
  \/ (exists k h e ev,
         Z.of_nat (size (_subs m)) <> MAX_SUB_SIZE
         /\ cl_code h = EventHandler
         /\ cl_id h = closures m
         /\ _subscribe req w opts m = (Ok k, subscribed m e ev k h)).
Proof.
  unfold _subscribe, _getEventName.
  destruct (params req) as [| | | | |l|];
    try (left; eexists; repeat split; reflexivity).
  run_monad.
  destruct (truthy (hd VUndef l)); run_monad;
    [|left; eexists; repeat split; reflexivity].
  destruct (Z.of_nat (size (_subs m)) =? MAX_SUB_SIZE)%Z eqn:Hsize;
    [left; eexists; repeat split; reflexivity|].
  apply Z.eqb_neq in Hsize.
  destruct (String.eqb opts "wallet").
  - unfold closure, js_on. run_monad.
    destruct (self w) as [|c [e|] ks ms]; run_monad;
      try (left; eexists; repeat split; reflexivity).
    right. do 4 eexists. repeat split; [exact Hsize|..]; reflexivity.
  - destruct (String.eqb opts "resource");
      [|left; eexists; repeat split; reflexivity].
    unfold closure, js_on. run_monad. cbn [namespace resource].
    destruct (prop (prop (self w) (namespace req)) (str_of (resource req)))
      as [|c [e|] ks ms]; run_monad;
      try (left; eexists; repeat split; reflexivity).
    right. do 4 eexists. repeat split; [exact Hsize|..]; reflexivity.
Qed.

(** [_unsubscribe] either throws, having detached and removed nothing, or
    returns a key, having detached the registered handler and removed its
    entry. *)
Lemma _unsubscribe_cases (req : Request) (w : Facade) (opts : string) (m : Manager) :
  (exists err, _unsubscribe req w opts m = (Throw err, m))
  \/ (exists k h e ev,
         _subs m !! k = Some h
         /\ _unsubscribe req w opts m = (Ok k, unsubscribed m e ev k h)).
Proof.
  unfold _unsubscribe, _getEventName.
  destruct (params req) as [| | | | |l|]; try (left; eexists; reflexivity).
  run_monad.
  destruct (truthy (hd VUndef l)); run_monad; [|left; eexists; reflexivity].
  destruct (String.eqb opts "wallet").
  - unfold _getEventHandler. run_monad.
    destruct (_subs m !! _) as [h|] eqn:Hh; run_monad; [|left; eexists; reflexivity].
    unfold js_off.
    destruct (self w) as [|c [e|] ks ms]; run_monad; try (left; eexists; reflexivity).
    right. do 4 eexists. split; [exact Hh|reflexivity].
  - destruct (String.eqb opts "resource"); [|left; eexists; reflexivity].
    cbn [namespace resource].
    destruct (prop (prop (self w) (namespace req)) (str_of (resource req)))
      as [|c em ks ms]; cbn [truthy_obj]; [left; eexists; reflexivity|].
    unfold _getEventHandler. run_monad.
    destruct (_subs m !! _) as [h|] eqn:Hh; run_monad; [|left; eexists; reflexivity].
    unfold js_off. destruct em as [e|]; run_monad; [|left; eexists; reflexivity].
    right. do 4 eexists. split; [exact Hh|reflexivity].
Qed.

Lemma stable_reads (P : Manager -> Prop) : stable P -> reads_maps P.
Proof. intros [H _]. exact H. Qed.

Lemma stable_loadable (P : Manager -> Prop) : stable P -> loadable P.
Proof. intros [H [H' _]]. split; assumption. Qed.

Lemma preserves_subscribe (P : Manager -> Prop) (req : Request) (w : Facade) (opts : string) :
  stable P -> preserves P (_subscribe req w opts).
Proof.
  intros [Hr [_ [Hins _]]] m Hm.
  destruct (_subscribe_cases req w opts m) as [[err [_ [Hsame _]]]|[k [h [e [ev [Hsz [_ [_ Heq]]]]]]]].
  - eapply reads_maps_same; eassumption.
  - rewrite Heq. cbn [snd]. unfold subscribed.
    apply (Hr (set_subs (<[k := h]> (_subs m)) m)); try reflexivity.
    apply Hins; assumption.
Qed.

Lemma preserves_unsubscribe (P : Manager -> Prop) (req : Request) (w : Facade) (opts : string) :
  stable P -> preserves P (_unsubscribe req w opts).
Proof.
  intros [Hr [_ [_ Hdel]]] m Hm.
  destruct (_unsubscribe_cases req w opts m) as [[err Heq]|[k [h [e [ev [_ Heq]]]]]];
    rewrite Heq; cbn [snd]; [exact Hm|].
  unfold unsubscribed.
  apply (Hr (set_subs (delete k (_subs m)) m)); try reflexivity.
  apply Hdel; assumption.
Qed.

Lemma preserves_load (E : Env) (P : Manager -> Prop) (config : option WalletExport) :
  loadable P -> preserves P (_load E config).
Proof.
  intros [Hr Hw]. unfold _load, getWallet, _runWalletLoader.
  destruct config as [config|]; [|apply preserves_throw].
  step_preserves. apply preserves_modify. intros m Hm. apply Hw. exact Hm.
Qed.

Lemma preserves_setupWallet (E : Env) (P : Manager -> Prop) (opts : option SetupOptions) :
  loadable P -> preserves P (_setupWallet E opts).
Proof.
  intros HP. unfold _setupWallet, getWalletList, getWallet.
  apply preserves_bind; [step_preserves|]. intros walletList.
  destruct opts as [opts|]; [|apply preserves_throw].
  destruct (all opts).
  - apply preserves_bind; [|intros ?; apply preserves_ret].
    apply preserves_Promise_all. apply Forall_forall. intros c Hc.
    apply list_elem_of_In, in_map_iff in Hc. destruct Hc as [x [<- _]].
    apply preserves_bind; [step_preserves|]. intros config.
    apply preserves_bind; [apply preserves_load; exact HP|].
    intros ?. apply preserves_ret.
  - apply preserves_bind; [step_preserves|]. intros config.
    destruct config as [config|]; [|apply preserves_throw].
    apply preserves_bind; [apply preserves_load; exact HP|].
    intros ?. apply preserves_ret.
Qed.

Lemma preserves_loadWallet (E : Env) (P : Manager -> Prop) (o : option SetupOptions)
      (param : list SetupOptions) :
  loadable P -> preserves P (loadWallet E o param).
Proof.
  intros HP. unfold loadWallet.
  apply preserves_bind; [apply preserves_setupWallet; exact HP|].
  intros res. destruct res as [ws|l]; [apply preserves_ret|].
  destruct (forallb _ l); [apply preserves_ret|apply preserves_throw].
Qed.

Lemma preserves_callWallet (E : Env) (P : Manager -> Prop) (req : Request) :
  stable P -> preserves P (callWallet E req).
Proof.
  intros HP. pose proof (stable_reads P HP) as Hr. unfold callWallet.
  apply preserves_bind; [apply preserves_get|]. intros m0.
  apply preserves_bind.
  - destruct (_wallets m0 !! name req) as [w|]; [apply preserves_ret|].
    apply preserves_bind; [apply preserves_setupWallet, stable_loadable; exact HP|].
    intros res. destruct res as [ws|l]; [|apply preserves_throw].
    destruct (last ws) as [w|]; [|apply preserves_throw].
    apply preserves_bind; [apply preserves_subBootstrapEvents; exact Hr|].
    intros ?. apply preserves_ret.
  - intros w. cbn zeta.
    destruct (negb (truthy_obj (prop (self w) (namespace req)))); [apply preserves_throw|].
    destruct (String.eqb (namespace req) "on");
      [apply preserves_fmap, preserves_subscribe; exact HP|].
    destruct (String.eqb (namespace req) "off");
      [apply preserves_fmap, preserves_unsubscribe; exact HP|].
    destruct (negb (named (resource req))).
    { apply preserves_bind; [apply preserves_lift|].
      intros args. apply preserves_call; exact Hr. }
    destruct (negb (truthy_obj (prop _ (str_of (resource req))))); [apply preserves_throw|].
    destruct (is_str (method req) "on");
      [apply preserves_fmap, preserves_subscribe; exact HP|].
    destruct (is_str (method req) "off");
      [apply preserves_fmap, preserves_unsubscribe; exact HP|].
    destruct (negb (truthy_obj (prop _ (str_of (method req))))); [apply preserves_throw|].
    destruct (params req); apply preserves_call; exact Hr.
Qed.

(** ** Operations that never touch the subscription map *)

Lemma reads_subs_maps (P : Manager -> Prop) : reads_subs P -> reads_maps P.
Proof. intros HP m m' _ _ Hs. apply HP. exact Hs. Qed.

Lemma reads_store_maps (P : Manager -> Prop) : reads_store P -> reads_maps P.
Proof. intros HP m m' Hs _ _. apply HP. exact Hs. Qed.

Lemma reads_store_stable (P : Manager -> Prop) : reads_store P -> stable P.
Proof.
  intros HP. split; [apply reads_store_maps; exact HP|].
  repeat split; intros; eapply HP; try eassumption; reflexivity.
Qed.

Lemma preserves_addWallet_subs (P : Manager -> Prop) (req : Request) (e : WalletExport) :
  reads_subs P -> preserves P (addWallet req e).
Proof.
  intros HP. unfold addWallet, getWalletList, _updateWalletList.
  step_preserves; apply preserves_modify; intros m Hm; (eapply HP; [|exact Hm]); reflexivity.
Qed.

Lemma preserves_removeWallet_subs (P : Manager -> Prop) (req : Request) (n : string) :
  reads_subs P -> preserves P (removeWallet req n).
Proof.
  intros HP. unfold removeWallet, getWalletList, _updateWalletList.
  step_preserves; apply preserves_modify; intros m Hm; (eapply HP; [|exact Hm]); reflexivity.
Qed.

Lemma preserves_createWallet_subs (E : Env) (P : Manager -> Prop) (req : Request)
      (opts : CreateOptions) :
  reads_subs P -> preserves P (createWallet E req opts).
Proof.
  intros HP. unfold createWallet, _runWalletLoader. cbn zeta.
  apply preserves_bind; [apply preserves_get|]. intros m0.
  destruct (_wallets m0 !! _); [apply preserves_throw|].
  apply preserves_bind; [step_preserves|]. intros w.
  apply preserves_bind; [apply preserves_lift|]. intros e.
  apply preserves_bind.
  { apply preserves_modify. intros m Hm. eapply HP; [|exact Hm]. reflexivity. }
  intros _. apply preserves_bind; [apply preserves_addWallet_subs; exact HP|].
  intros _. apply preserves_bind; [|intros _; apply preserves_ret].
  destruct (opts_req opts);
    [apply preserves_subBootstrapEvents, reads_subs_maps; exact HP|apply preserves_ret].
Qed.

(** ** Capacity of the subscription map *)

Lemma within_capacity_stable : stable within_capacity.
Proof.
  unfold within_capacity. repeat split.
  - intros m m' _ _ Hs Hm. rewrite Hs. exact Hm.
  - intros m k w Hm. exact Hm.
  - intros m k h Hm Hne. simpl. rewrite map_size_insert.
    destruct (_subs m !! k); unfold id, MAX_SUB_SIZE in *; lia.
  - intros m k Hm. simpl. rewrite map_size_delete.
    destruct (_subs m !! k); unfold id, MAX_SUB_SIZE in *; lia.
Qed.

Lemma within_capacity_reads_subs : reads_subs within_capacity.
Proof. intros m m' Hs Hm. unfold within_capacity in *. rewrite Hs. exact Hm. Qed.

(** ** The persisted index and its records *)

Lemma includes_names (n : string) (l : list (option string)) :
  includes n l = true <-> n ∈ names_of l.
Proof.
  unfold names_of. induction l as [|[s|] r IH]; simpl.
  - split; [discriminate|]. intros H. inversion H.
  - rewrite orb_true_iff, IH, String.eqb_eq, elem_of_cons. split; intros [H|H]; auto.
  - exact IH.
Qed.

Lemma names_of_app (l1 l2 : list (option string)) :
  names_of (l1 ++ l2) = names_of l1 ++ names_of l2.
Proof. apply omap_app. Qed.

Lemma names_of_emptied (i : nat) (l : list (option string)) :
  names_of (<[i := None]> l) `sublist_of` names_of l.
Proof.
  unfold names_of. revert i. induction l as [|x r IH]; intros i; [constructor|].
  destruct i as [|i]; simpl.
  - destruct x as [s|]; simpl; [apply sublist_cons|]; reflexivity.
  - destruct x as [s|]; simpl; [apply sublist_skip|]; apply IH.
Qed.

Lemma delete_prop_names (l l' : list (option string)) (k : string) :
  delete_prop l k = Ok l' -> names_of l' `sublist_of` names_of l.
Proof.
  unfold delete_prop. destruct (array_index k) as [i|].
  - intros [= <-]. destruct (i <? length l)%nat; [apply names_of_emptied|reflexivity].
  - destruct (String.eqb k "length"); [discriminate|]. intros [= <-]. reflexivity.
Qed.

Lemma preserves_indexed_addWallet (req : Request) (e : WalletExport) :
  preserves (fun m => indexed (_store m)) (addWallet req e).
Proof.
  intros m [Hnd Hrec]. unfold addWallet, getWalletList, _updateWalletList. run_monad.
  destruct (includes (exp_name e) (default [] (wallets (_store m)))) eqn:Hinc;
    [split; assumption|].
  cbn [snd]. unfold indexed. cbn [_store set_store wallets records default from_option id].
  assert (Hnew : exp_name e ∉ names_of (default [] (wallets (_store m)))).
  { intros Hin. apply includes_names in Hin. congruence. }
  rewrite names_of_app. change (names_of [Some (exp_name e)]) with [exp_name e].
  split.
  - apply NoDup_app. repeat split; [exact Hnd| |apply NoDup_singleton].
    intros x Hx Hx'. apply list_elem_of_singleton in Hx'. subst x. contradiction.
  - intros n Hn. apply elem_of_app in Hn as [Hn|Hn].
    + apply lookup_insert_is_Some'. right. apply Hrec. exact Hn.
    + apply list_elem_of_singleton in Hn. subst n.
      apply lookup_insert_is_Some'. left. reflexivity.
Qed.

Lemma preserves_indexed_removeWallet (req : Request) (n : string) :
  preserves (fun m => indexed (_store m)) (removeWallet req n).
Proof.
  intros m [Hnd Hrec]. unfold removeWallet, getWalletList, _updateWalletList. run_monad.
  destruct (delete_prop (default [] (wallets (_store m))) n) as [l'|err] eqn:Hdel;
    [|split; assumption].
  apply delete_prop_names in Hdel. cbn [snd]. unfold indexed.
  cbn [_store set_store wallets records default from_option id]. split.
  - eapply sublist_NoDup; eassumption.
  - intros x Hx. apply Hrec. eapply elem_of_sublist; eassumption.
Qed.

Lemma indexed_reads_store : reads_store (fun m => indexed (_store m)).
Proof. intros m m' Hs Hm. rewrite Hs. exact Hm. Qed.

Lemma preserves_createWallet_store (E : Env) (P : Manager -> Prop) (req : Request)
      (opts : CreateOptions) :
  reads_store P -> (forall e, preserves P (addWallet req e)) ->
  preserves P (createWallet E req opts).
Proof.
  intros HP Hadd. unfold createWallet, _runWalletLoader. cbn zeta.
  apply preserves_bind; [apply preserves_get|]. intros m0.
  destruct (_wallets m0 !! _); [apply preserves_throw|].
  apply preserves_bind; [step_preserves|]. intros w.
  apply preserves_bind; [apply preserves_lift|]. intros e.
  apply preserves_bind.
  { apply preserves_modify. intros m Hm. eapply HP; [|exact Hm]. reflexivity. }
  intros _. apply preserves_bind; [apply Hadd|].
  intros _. apply preserves_bind; [|intros _; apply preserves_ret].
  destruct (opts_req opts);
    [apply preserves_subBootstrapEvents, reads_store_maps; exact HP|apply preserves_ret].
Qed.

(** ** The public operations, and the states they reach *)

Lemma perform_capacity (E : Env) (m : Manager) (op : operation) :
  within_capacity m -> within_capacity (perform E m op).
Proof.
  intros Hm. destruct op as [req opts|req e|req n|o param|req]; simpl.
  - apply preserves_createWallet_subs; [apply within_capacity_reads_subs|exact Hm].
  - apply preserves_addWallet_subs; [apply within_capacity_reads_subs|exact Hm].
  - apply preserves_removeWallet_subs; [apply within_capacity_reads_subs|exact Hm].
  - apply preserves_loadWallet; [apply stable_loadable, within_capacity_stable|exact Hm].
  - apply preserves_callWallet; [apply within_capacity_stable|exact Hm].
Qed.

Lemma perform_indexed (E : Env) (m : Manager) (op : operation) :
  indexed (_store m) -> indexed (_store (perform E m op)).
Proof.
  intros Hm. destruct op as [req opts|req e|req n|o param|req]; simpl.
  - apply (preserves_createWallet_store E (fun m => indexed (_store m)));
      [apply indexed_reads_store|apply preserves_indexed_addWallet|exact Hm].
  - apply preserves_indexed_addWallet. exact Hm.
  - apply preserves_indexed_removeWallet. exact Hm.
  - apply (preserves_loadWallet E (fun m => indexed (_store m)));
      [apply stable_loadable, reads_store_stable, indexed_reads_store|exact Hm].
  - apply (preserves_callWallet E (fun m => indexed (_store m)));
      [apply reads_store_stable, indexed_reads_store|exact Hm].
Qed.

Lemma fold_perform (E : Env) (P : Manager -> Prop) (ops : list operation) :
  (forall m op, P m -> P (perform E m op)) ->
  forall m, P m -> P (fold_left (perform E) ops m).
Proof.
  intros Hstep. induction ops as [|op r IH]; intros m Hm; simpl; [exact Hm|].
  apply IH, Hstep, Hm.
Qed.

Lemma preserves_addWallet_ignoring (P : Manager -> Prop) (req : Request) (e : WalletExport) :
  ignores_store P -> preserves P (addWallet req e).
Proof.
  intros HP. unfold addWallet, getWalletList, _updateWalletList.
  step_preserves; apply preserves_modify; intros m Hm; apply HP; exact Hm.
Qed.

Lemma preserves_removeWallet_ignoring (P : Manager -> Prop) (req : Request) (n : string) :
  ignores_store P -> preserves P (removeWallet req n).
Proof.
  intros HP. unfold removeWallet, getWalletList, _updateWalletList.
  step_preserves; apply preserves_modify; intros m Hm; apply HP; exact Hm.
Qed.

Lemma preserves_createWallet (E : Env) (P : Manager -> Prop) (req : Request)
      (opts : CreateOptions) :
  loadable P -> (forall e, preserves P (addWallet req e)) ->
  preserves P (createWallet E req opts).
Proof.
  intros [Hr Hw] Hadd. unfold createWallet, _runWalletLoader. cbn zeta.
  apply preserves_bind; [apply preserves_get|]. intros m0.
  destruct (_wallets m0 !! _); [apply preserves_throw|].
  apply preserves_bind; [step_preserves|]. intros w.
  apply preserves_bind; [apply preserves_lift|]. intros e.
  apply preserves_bind; [apply preserves_modify; intros m Hm; apply Hw; exact Hm|].
  intros _. apply preserves_bind; [apply Hadd|].
  intros _. apply preserves_bind; [|intros _; apply preserves_ret].
  destruct (opts_req opts);
    [apply preserves_subBootstrapEvents; exact Hr|apply preserves_ret].
Qed.

Lemma materialized_stable (n : string) : stable (fun m => is_Some (_wallets m !! n)).
Proof.
  repeat split.
  - intros m m' _ Hw _ Hm. rewrite Hw. exact Hm.
  - intros m k w Hm. simpl. apply lookup_insert_is_Some'. right. exact Hm.
  - intros m k h Hm _. exact Hm.
  - intros m k Hm. exact Hm.
Qed.

(** X1: in every state reached from a newly constructed manager by any
    sequence of createWallet, addWallet, removeWallet, loadWallet and
    callWallet calls, whatever they return or throw, the subscription map
    holds at most [MAX_SUB_SIZE] handlers. *)
Theorem capacity_holds_in_every_reachable_state (E : Env) (disk : Store)
        (store_path : string) (ops : list operation) :
  within_capacity (fold_left (perform E) ops (constructed disk store_path)).
Proof.
  apply fold_perform.
  - intros m op. apply perform_capacity.
  - unfold within_capacity, constructed, MAX_SUB_SIZE. simpl.
    rewrite map_size_empty. lia.
Qed.

(** X2: if the names of the persisted index are pairwise distinct and each
    has an export record, this still holds after any sequence of
    createWallet, addWallet, removeWallet, loadWallet and callWallet
    calls. *)
Theorem index_stays_consistent (E : Env) (m : Manager) (ops : list operation) :
  indexed (_store m) -> indexed (_store (fold_left (perform E) ops m)).
Proof.
  apply (fold_perform E (fun m => indexed (_store m))).
  intros m0 op. apply perform_indexed.
Qed.

Lemma indexed_store_of_a : indexed (store_of ["a"]).
Proof.
  split.
  - apply NoDup_singleton.
  - intros n Hn. apply list_elem_of_singleton in Hn. subst n.
    vm_compute. eexists. reflexivity.
Qed.

Lemma index_stays_consistent_witness :
  indexed (_store (fold_left (perform env)
                     [Create (request "" "" None None VUndef None)
                        (mkCreateOptions (Some "b") None None);
                      Remove (request "" "" None None VUndef None) "0";
                      Call (request "b" "pay" (Some "btc") (Some "getBalance") (VArr []) None)]
                     (manager ["a"] []))).
Proof. apply (index_stays_consistent env (manager ["a"] [])). apply indexed_store_of_a. Defined.

(** X3: callWallet and loadWallet never write to the store: the index and
    the export records are what they were, whatever the request and
    whatever the outcome. *)
Theorem dispatch_and_loading_never_write_the_store (E : Env) (req : Request)
        (o : option SetupOptions) (param : list SetupOptions) (m : Manager) :
  _store (snd (callWallet E req m)) = _store m
  /\ _store (snd (loadWallet E o param m)) = _store m.
Proof.
  assert (Hst : stable (fun m' => _store m' = _store m)).
  { apply reads_store_stable. intros m1 m2 Hs Hm. rewrite Hs. exact Hm. }
  split.
  - apply (preserves_callWallet E _ req Hst). reflexivity.
  - apply (preserves_loadWallet E _ o param (stable_loadable _ Hst)). reflexivity.
Qed.

(** X4: a wallet that is in the in-memory map is still there after any of
    the five operations: none of them evicts a facade. *)
Theorem materialized_wallets_are_never_evicted (E : Env) (m : Manager) (op : operation)
        (n : string) :
  is_Some (_wallets m !! n) -> is_Some (_wallets (perform E m op) !! n).
Proof.
  intros Hm. pose proof (materialized_stable n) as Hst.
  assert (Hig : ignores_store (fun m => is_Some (_wallets m !! n)))
    by (intros m0 s H0; exact H0).
  destruct op as [req opts|req e|req k|o param|req]; simpl.
  - apply (preserves_createWallet E _ req opts (stable_loadable _ Hst)); [|exact Hm].
    intros e. apply preserves_addWallet_ignoring. exact Hig.
  - apply (preserves_addWallet_ignoring _ req e Hig). exact Hm.
  - apply (preserves_removeWallet_ignoring _ req k Hig). exact Hm.
  - apply (preserves_loadWallet E _ o param (stable_loadable _ Hst)). exact Hm.
  - apply (preserves_callWallet E _ req Hst). exact Hm.
Qed.

Lemma materialized_wallets_are_never_evicted_witness :
  is_Some (_wallets (perform env (manager ["w"] ["w"])
                       (Remove (request "" "" None None VUndef None) "w")) !! "w").
Proof.
  apply (materialized_wallets_are_never_evicted env (manager ["w"] ["w"])).
  vm_compute. eexists. reflexivity.
Defined.

(** X5: a call of [_subscribe] that throws has attached no listener and
    registered no handler: the subscription map, the listeners of every
    emitter, the store and the in-memory wallets are as before. *)
Theorem subscribe_failure_registers_nothing (req : Request) (w : Facade) (opts : string)
        (m : Manager) (err : error) :
  fst (_subscribe req w opts m) = Throw err ->
  _subs (snd (_subscribe req w opts m)) = _subs m
  /\ listeners (snd (_subscribe req w opts m)) = listeners m
  /\ _wallets (snd (_subscribe req w opts m)) = _wallets m
  /\ _store (snd (_subscribe req w opts m)) = _store m.
Proof.
  intros Hthrow.
  destruct (_subscribe_cases req w opts m)
    as [[err' [_ [[Hs [Hw [Hst _]]] Hl]]]|[k [h [e [ev [_ [_ [_ Heq]]]]]]]].
  - auto.
  - rewrite Heq in Hthrow. discriminate.
Qed.

Lemma subscribe_failure_registers_nothing_witness :
  _subs (snd (_subscribe (request "w" "on" None None (VArr []) (Some 0)) (facade "w")
                "wallet" (manager ["w"] ["w"])))
  = _subs (manager ["w"] ["w"]).
Proof.
  apply (subscribe_failure_registers_nothing
           (request "w" "on" None None (VArr []) (Some 0)) (facade "w") "wallet"
           (manager ["w"] ["w"]) (Error "event name is missing")).
  vm_compute. reflexivity.
Defined.

(** X6: a call of [_unsubscribe] that throws leaves the manager exactly as
    it was: nothing is detached and no entry is removed unless the call
    returns its key. *)
Theorem unsubscribe_failure_changes_nothing (req : Request) (w : Facade) (opts : string)
        (m : Manager) (err : error) :
  fst (_unsubscribe req w opts m) = Throw err ->
  snd (_unsubscribe req w opts m) = m.
Proof.
  intros Hthrow.
  destruct (_unsubscribe_cases req w opts m) as [[err' Heq]|[k [h [e [ev [_ Heq]]]]]];
    rewrite Heq in *; [reflexivity|discriminate].
Qed.

Lemma unsubscribe_failure_changes_nothing_witness :
  snd (_unsubscribe (request "w" "off" None None (VArr [VStr "new-tx"]) (Some 0))
         (facade "w") "wallet" (manager ["w"] ["w"]))
  = manager ["w"] ["w"].
Proof.
  apply (unsubscribe_failure_changes_nothing
           (request "w" "off" None None (VArr [VStr "new-tx"]) (Some 0)) (facade "w")
           "wallet" (manager ["w"] ["w"]) (Error "handler does not exist w:new-tx")).
  vm_compute. reflexivity.
Defined.

Lemma plain_call_inv (req : Request) :
  plain_call req = true ->
  String.eqb (namespace req) "on" = false /\ String.eqb (namespace req) "off" = false
  /\ is_str (method req) "on" = false /\ is_str (method req) "off" = false.
Proof.
  unfold plain_call. intros H.
  apply andb_prop in H as [H H4]. apply andb_prop in H as [H H3].
  apply andb_prop in H as [H1 H2].
  apply negb_true_iff in H1, H2, H3, H4. auto.
Qed.

(** X7: a request that is not a subscription control call (neither its
    namespace nor its method is "on" or "off") leaves the subscription map
    as it is, also when it loads the wallet on the way and bootstrap
    listeners are attached. *)
Theorem plain_call_keeps_subscriptions (E : Env) (req : Request) (m : Manager) :
  plain_call req = true ->
  _subs (snd (callWallet E req m)) = _subs m.
Proof.
  intros Hplain. destruct (plain_call_inv req Hplain) as [Hon [Hoff [Hmon Hmoff]]].
  set (P := fun m' : Manager => _subs m' = _subs m).
  assert (Hr : reads_subs P) by (intros m1 m2 Hs Hm; unfold P; rewrite Hs; exact Hm).
  assert (Hl : loadable P).
  { split; [apply reads_subs_maps; exact Hr|]. intros m1 k w Hm. exact Hm. }
  assert (Hp : preserves P (callWallet E req)); [|apply Hp; reflexivity].
  unfold callWallet. rewrite Hon, Hoff, Hmon, Hmoff.
  apply preserves_bind; [apply preserves_get|]. intros m0.
  apply preserves_bind.
  - destruct (_wallets m0 !! name req) as [w|]; [apply preserves_ret|].
    apply preserves_bind; [apply preserves_setupWallet; exact Hl|].
    intros res. destruct res as [ws|l]; [|apply preserves_throw].
    destruct (last ws) as [w|]; [|apply preserves_throw].
    apply preserves_bind;
      [apply preserves_subBootstrapEvents, reads_subs_maps; exact Hr|].
    intros ?. apply preserves_ret.
  - intros w. cbn zeta.
    destruct (negb (truthy_obj (prop (self w) (namespace req)))); [apply preserves_throw|].
    destruct (negb (named (resource req))).
    { apply preserves_bind; [apply preserves_lift|].
      intros args. apply preserves_call, reads_subs_maps; exact Hr. }
    destruct (negb (truthy_obj (prop _ (str_of (resource req))))); [apply preserves_throw|].
    destruct (negb (truthy_obj (prop _ (str_of (method req))))); [apply preserves_throw|].
    destruct (params req); apply preserves_call, reads_subs_maps; exact Hr.
Qed.

Lemma plain_call_keeps_subscriptions_witness :
  _subs (snd (callWallet env
                (request "w" "pay" (Some "btc") (Some "getBalance") (VArr []) (Some 0))
                (manager ["w"] [])))
  = _subs (manager ["w"] []).
Proof.
  apply (plain_call_keeps_subscriptions env
           (request "w" "pay" (Some "btc") (Some "getBalance") (VArr []) (Some 0))
           (manager ["w"] [])).
  reflexivity.
Defined.

(** ** Persisting and creating *)

Lemma addWallet_appends (req : Request) (e : WalletExport) (m : Manager) :
  includes (exp_name e) (index m) = false ->
  addWallet req e m = (Ok tt, persisted m e).
Proof.
  intros Hinc. unfold addWallet, getWalletList, _updateWalletList. run_monad.
  fold (index m). rewrite Hinc. reflexivity.
Qed.

(** X8: [addWallet] of an export whose name the index does not hold
    resolves, appends the name at the end of the index and stores the
    export; reading it back, [getWallet] of that name returns the export
    and the index includes the name. *)
Theorem addWallet_fresh (req : Request) (e : WalletExport) (m : Manager) :
  includes (exp_name e) (index m) = false ->
  addWallet req e m = (Ok tt, persisted m e)
  /\ getWalletList (persisted m e) = (Ok (index m ++ [Some (exp_name e)]), persisted m e)
  /\ getWallet (VObj []) (Some (exp_name e)) (persisted m e) = (Ok (Some e), persisted m e)
  /\ includes (exp_name e) (index (persisted m e)) = true.
Proof.
  intros Hinc. repeat split.
  - apply addWallet_appends. exact Hinc.
  - unfold getWallet, persisted. run_monad. simpl. rewrite lookup_insert_eq. reflexivity.
  - apply includes_names. unfold index, persisted. simpl. fold (index m).
    rewrite names_of_app. apply elem_of_app. right. apply list_elem_of_singleton.
    reflexivity.
Qed.

Lemma addWallet_fresh_witness :
  addWallet (request "" "" None None VUndef None) (export_of "b") (manager ["a"] [])
  = (Ok tt, persisted (manager ["a"] []) (export_of "b")).
Proof.
  apply (addWallet_fresh (request "" "" None None VUndef None) (export_of "b")
           (manager ["a"] [])).
  vm_compute. reflexivity.
Defined.

(** X9: [createWallet] of a name that is neither materialized nor in the
    index, with a loader and an export that succeed: the name is appended
    to the index, the export is stored, the facade is in the in-memory map
    under its own [walletName], the subscription map is untouched; without
    bootstrap request the call resolves with the export and attaches no
    listener, with one its outcome is the export or what attaching the
    bootstrap listeners throws, the wallet staying stored and
    materialized. *)
Theorem createWallet_fresh (E : Env) (req : Request) (opts : CreateOptions)
        (m : Manager) (w : Facade) (e : WalletExport) :
  _wallets m !! created_name opts = None ->
  walletLoader E (FromOptions (created_name opts) (created_path opts m) (opts_req opts))
    (_store_path m) = Ok w ->
  exportWallet w = Ok e ->
  includes (exp_name e) (index m) = false ->
  index (snd (createWallet E req opts m)) = index m ++ [Some (exp_name e)]
  /\ records (_store (snd (createWallet E req opts m))) !! wallet_key (Some (exp_name e))
     = Some e
  /\ _wallets (snd (createWallet E req opts m)) = <[walletName w := w]> (_wallets m)
  /\ _subs (snd (createWallet E req opts m)) = _subs m
  /\ (opts_req opts = None ->
      fst (createWallet E req opts m) = Ok e
      /\ listeners (snd (createWallet E req opts m)) = listeners m)
  /\ (forall r, opts_req opts = Some r ->
      createWallet E req opts m
      = (match fst (_subBootstrapEvents E w r
                      (persisted (set_wallets (<[walletName w := w]> (_wallets m)) m) e)) with
         | Ok _ => Ok e
         | Throw err => Throw err
         end,
         snd (_subBootstrapEvents E w r
                (persisted (set_wallets (<[walletName w := w]> (_wallets m)) m) e)))).
Proof.
  intros Hw Hload Hexp Hinc.
  set (m1 := set_wallets (<[walletName w := w]> (_wallets m)) m).
  assert (Hrun : createWallet E req opts m
                 = match opts_req opts with
                   | Some r =>
                       (match fst (_subBootstrapEvents E w r (persisted m1 e)) with
                        | Ok _ => Ok e
                        | Throw err => Throw err
                        end, snd (_subBootstrapEvents E w r (persisted m1 e)))
                   | None => (Ok e, persisted m1 e)
                   end).
  { unfold createWallet. run_monad.
    fold (created_name opts). fold (created_path opts m). rewrite Hw.
    unfold _runWalletLoader. run_monad. rewrite Hload. rewrite Hexp.
    fold m1.
    rewrite (addWallet_appends req e m1 Hinc).
    destruct (opts_req opts) as [r|]; [|reflexivity].
    destruct (_subBootstrapEvents E w r (persisted m1 e)) as [[[]|err] m2]; reflexivity. }
  assert (Hsame : same_maps (persisted m1 e) (snd (createWallet E req opts m))).
  { rewrite Hrun. destruct (opts_req opts) as [r|]; cbn [snd];
      [apply _subBootstrapEvents_same_maps|apply same_maps_refl]. }
  destruct Hsame as [Hs [Hwal [Hst _]]].
  repeat split.
  - unfold index. rewrite Hst. reflexivity.
  - rewrite Hst. unfold persisted. simpl. apply lookup_insert_eq.
  - rewrite Hwal. reflexivity.
  - rewrite Hs. reflexivity.
  - rewrite Hrun, H. reflexivity.
  - rewrite Hrun, H. reflexivity.
  - intros r Hr. rewrite Hrun, Hr. reflexivity.
Qed.

Lemma createWallet_fresh_witness :
  index (snd (createWallet env (request "" "" None None VUndef None)
                (mkCreateOptions (Some "b") None None) (manager ["a"] [])))
  = [Some "a"; Some "b"].
Proof.
  refine (proj1 (createWallet_fresh env (request "" "" None None VUndef None)
                   (mkCreateOptions (Some "b") None None) (manager ["a"] [])
                   (facade "b") (export_of "b") _ _ _ _));
    vm_compute; reflexivity.
Defined.

(** ** Removing by key *)

Lemma emptied_slot_name (l : list (option string)) (i : nat) (x : string) :
  l !! i = Some (Some x) -> NoDup (names_of l) -> x ∉ names_of (<[i := None]> l).
Proof.
  unfold names_of. revert i. induction l as [|y r IH]; intros i Hi Hnd; [discriminate|].
  destruct i as [|i]; simpl in *.
  - injection Hi as ->. simpl in Hnd. apply NoDup_cons in Hnd as [Hx _]. exact Hx.
  - destruct y as [s|]; simpl in *.
    + apply NoDup_cons in Hnd as [Hs Hnd]. intros Hin.
      apply elem_of_cons in Hin as [->|Hin].
      * apply Hs. apply list_elem_of_omap. exists (Some s). split; [|reflexivity].
        eapply list_elem_of_lookup_2. exact Hi.
      * exact (IH i Hi Hnd Hin).
    + apply IH; assumption.
Qed.

(** X10: when the name passed to [removeWallet] spells an array index
    within the index sequence, the call resolves and empties that slot,
    whatever name the slot holds, the other slots and the length being
    kept; with pairwise distinct names the wallet that stood in the slot
    is no longer included. *)
Theorem removeWallet_empties_the_slot (req : Request) (n : string) (i : nat) (m : Manager) :
  array_index n = Some i ->
  (i < length (index m))%nat ->
  removeWallet req n m
  = (Ok tt, set_store (mkStore (Some (<[i := None]> (index m))) (records (_store m))) m)
  /\ length (index (snd (removeWallet req n m))) = length (index m)
  /\ (forall j, j <> i -> index (snd (removeWallet req n m)) !! j = index m !! j)
  /\ (forall x, index m !! i = Some (Some x) -> NoDup (names_of (index m)) ->
                includes x (index (snd (removeWallet req n m))) = false).
Proof.
  intros Hidx Hlt.
  assert (Hrun : removeWallet req n m
                 = (Ok tt, set_store (mkStore (Some (<[i := None]> (index m)))
                                        (records (_store m))) m)).
  { unfold removeWallet, getWalletList, _updateWalletList, delete_prop. run_monad.
    fold (index m). rewrite Hidx. apply Nat.ltb_lt in Hlt. rewrite Hlt. reflexivity. }
  rewrite Hrun. cbn [snd]. unfold index at 2 4 6. cbn [_store set_store wallets].
  change (default [] (Some (<[i:=None]> (index m)))) with (<[i:=None]> (index m)).
  repeat split.
  - apply length_insert.
  - intros j Hj. apply list_lookup_insert_ne. congruence.
  - intros x Hx Hnd. apply not_true_is_false. intros Hinc.
    apply includes_names in Hinc. exact (emptied_slot_name _ _ _ Hx Hnd Hinc).
Qed.

Lemma removeWallet_empties_the_slot_witness :
  removeWallet (request "" "" None None VUndef None) "0" (manager ["a"; "b"] [])
  = (Ok tt, set_store (mkStore (Some [None; Some "b"])
                         (records (_store (manager ["a"; "b"] []))))
              (manager ["a"; "b"] [])).
Proof.
  refine (proj1 (removeWallet_empties_the_slot (request "" "" None None VUndef None) "0" 0
                   (manager ["a"; "b"] []) _ _)).
  - vm_compute. reflexivity.
  - vm_compute. lia.
Defined.

(** ** Loading a named wallet *)

(** X11: [loadWallet] naming a wallet whose export record [cfg] exists reads
    the record stored under [cfg]'s own name, hands it to the loader and
    puts the facade into the in-memory map under [cfg]'s name, replacing
    any facade that was there; it resolves with the facade's [walletName];
    nothing else changes: no listener is attached, the store is not
    written. *)
Theorem loadWallet_named (E : Env) (o : option SetupOptions) (n : option string)
        (rest : list SetupOptions) (m : Manager) (cfg cfg' : WalletExport) (w : Facade) :
  records (_store m) !! wallet_key n = Some cfg ->
  records (_store m) !! wallet_key (Some (exp_name cfg)) = Some cfg' ->
  walletLoader E (FromExport (Some cfg')) (_store_path m) = Ok w ->
  loadWallet E o (mkSetupOptions false n :: rest) m
  = (Ok [Some (walletName w)], set_wallets (<[exp_name cfg := w]> (_wallets m)) m).
Proof.
  intros Hcfg Hcfg' Hload.
  unfold loadWallet, _setupWallet, getWalletList, getWallet. run_monad. simpl.
  rewrite Hcfg. unfold _load, getWallet, _runWalletLoader. run_monad.
  rewrite Hcfg'. rewrite Hload. reflexivity.
Qed.

Lemma loadWallet_named_witness :
  loadWallet env None [mkSetupOptions false (Some "a")] (manager ["a"] [])
  = (Ok [Some "a"],
     set_wallets (<["a" := facade "a"]> (_wallets (manager ["a"] []))) (manager ["a"] [])).
Proof.
  apply (loadWallet_named env None (Some "a") [] (manager ["a"] [])
           (export_of "a") (export_of "a") (facade "a"));
    vm_compute; reflexivity.
Defined.

(** X12: when [_setupWallet] for a named wallet resolves, its result is a
    list of exactly one facade, the export record of the name exists and
    the facade is in the in-memory map under the record's name; so the
    empty-result guard of [callWallet] ("Wallet with name ... not found")
    never fires. *)
Theorem setupWallet_named_returns_one (E : Env) (n : option string) (m : Manager)
        (res : setup_result) :
  fst (_setupWallet E (Some (mkSetupOptions false n)) m) = Ok res ->
  exists w cfg,
    res = Wallets [w]
    /\ records (_store m) !! wallet_key n = Some cfg
    /\ _wallets (snd (_setupWallet E (Some (mkSetupOptions false n)) m)) !! exp_name cfg
       = Some w.
Proof.
  unfold _setupWallet, getWalletList, getWallet. run_monad. simpl.
  destruct (records (_store m) !! wallet_key n) as [cfg|] eqn:Hcfg; [|discriminate].
  unfold _load, getWallet, _runWalletLoader. run_monad.
  destruct (walletLoader E _ (_store_path m)) as [w|err]; [|discriminate].
  simpl. intros [= <-]. exists w, cfg. repeat split.
  apply lookup_insert_eq.
Qed.

Lemma setupWallet_named_returns_one_witness :
  exists w cfg,
    Wallets [facade "a"] = Wallets [w]
    /\ records (_store (manager ["a"] [])) !! wallet_key (Some "a") = Some cfg
    /\ _wallets (snd (_setupWallet env (Some (mkSetupOptions false (Some "a")))
                        (manager ["a"] []))) !! exp_name cfg = Some w.
Proof.
  apply (setupWallet_named_returns_one env (Some "a") (manager ["a"] [])
           (Wallets [facade "a"])).
  vm_compute. reflexivity.
Defined.

(** ** Dispatch to a wallet that is not materialized *)

(** X13: [callWallet] naming a wallet that is neither materialized nor has
    an export record fails with "cant find wallet data" (NotFound) and
    leaves the manager as it was. *)
Theorem callWallet_unknown_wallet (E : Env) (req : Request) (m : Manager) :
  _wallets m !! name req = None ->
  records (_store m) !! wallet_key (Some (name req)) = None ->
  callWallet E req m = (Throw (Error "cant find wallet data"), m)
  /\ classify (Error "cant find wallet data") = NotFound.
Proof.
  intros Hw Hrec. split; [|reflexivity].
  unfold callWallet, _setupWallet, getWalletList, getWallet. run_monad. simpl.
  rewrite Hw. run_monad. simpl. rewrite Hrec. reflexivity.
Qed.

Lemma callWallet_unknown_wallet_witness :
  callWallet env (request "z" "pay" (Some "btc") (Some "getBalance") (VArr []) None)
    (manager ["a"] [])
  = (Throw (Error "cant find wallet data"), manager ["a"] []).
Proof.
  refine (proj1 (callWallet_unknown_wallet env
                   (request "z" "pay" (Some "btc") (Some "getBalance") (VArr []) None)
                   (manager ["a"] []) _ _));
    vm_compute; reflexivity.
Defined.

(** [callWallet] on a materialized wallet is its dispatch steps. *)
Lemma callWallet_materialized (E : Env) (req : Request) (m : Manager) (w : Facade) :
  _wallets m !! name req = Some w -> callWallet E req m = dispatch E req w m.
Proof. intros Hw. unfold callWallet. run_monad. rewrite Hw. reflexivity. Qed.

(** X14: [callWallet] naming a wallet that is not materialized but has an
    export record under its name loads it, attaches the bootstrap
    listeners with the request as caller context and then dispatches
    exactly as it would on the state so reached, where the wallet is
    materialized; when attaching the bootstrap listeners throws, the call
    fails with that error, the wallet staying materialized. *)
Theorem callWallet_lazy_load (E : Env) (req : Request) (m : Manager)
        (cfg : WalletExport) (w : Facade) :
  _wallets m !! name req = None ->
  records (_store m) !! wallet_key (Some (name req)) = Some cfg ->
  exp_name cfg = name req ->
  walletLoader E (FromExport (Some cfg)) (_store_path m) = Ok w ->
  let loaded := set_wallets (<[name req := w]> (_wallets m)) m in
  _wallets (snd (_subBootstrapEvents E w req loaded)) !! name req = Some w
  /\ (fst (_subBootstrapEvents E w req loaded) = Ok tt ->
      callWallet E req m = callWallet E req (snd (_subBootstrapEvents E w req loaded)))
  /\ (forall err, fst (_subBootstrapEvents E w req loaded) = Throw err ->
      callWallet E req m = (Throw err, snd (_subBootstrapEvents E w req loaded))).
Proof.
  intros Hw Hcfg Hname Hload loaded.
  destruct (_subBootstrapEvents_same_maps E w req loaded) as [_ [Hwal _]].
  assert (Hmat : _wallets (snd (_subBootstrapEvents E w req loaded)) !! name req = Some w).
  { rewrite Hwal. unfold loaded. simpl. apply lookup_insert_eq. }
  assert (Hrun : callWallet E req m
                 = match _subBootstrapEvents E w req loaded with
                   | (Ok _, m1) => dispatch E req w m1
                   | (Throw err, m1) => (Throw err, m1)
                   end).
  { unfold callWallet. run_monad. rewrite Hw.
    unfold _setupWallet, getWalletList, getWallet. run_monad. simpl.
    rewrite Hcfg. unfold _load, getWallet, _runWalletLoader. run_monad.
    rewrite Hname, Hcfg, Hload. simpl. fold loaded.
    destruct (_subBootstrapEvents E w req loaded) as [[[]|err] m1]; reflexivity. }
  split; [exact Hmat|]. split.
  - intros Hok. rewrite (callWallet_materialized E req _ w Hmat), Hrun.
    destruct (_subBootstrapEvents E w req loaded) as [[[]|err] m1]; [reflexivity|].
    discriminate.
  - intros err Herr. rewrite Hrun.
    destruct (_subBootstrapEvents E w req loaded) as [[[]|err'] m1]; [discriminate|].
    simpl in Herr. injection Herr as ->. reflexivity.
Qed.

Lemma callWallet_lazy_load_witness :
  let req := request "a" "pay" (Some "btc") (Some "getBalance") (VArr []) (Some 0) in
  let loaded := set_wallets (<["a" := facade "a"]> (_wallets (manager ["a"] [])))
                  (manager ["a"] []) in
  callWallet env req (manager ["a"] [])
  = callWallet env req (snd (_subBootstrapEvents env (facade "a") req loaded)).
Proof.
  intros req loaded.
  refine (proj1 (proj2 (callWallet_lazy_load env req (manager ["a"] []) (export_of "a")
                          (facade "a") _ _ _ _)) _);
    vm_compute; reflexivity.
Defined.

(** ** Dispatch on a materialized wallet *)

(** X15: on a materialized wallet whose facade has no truthy member under
    the requested namespace, [callWallet] fails with "wallet doesnt have
    this namespace" (InvalidNamespace), whatever resource, method and
    params say, and leaves the manager as it was. *)
Theorem callWallet_unknown_namespace (E : Env) (req : Request) (m : Manager) (w : Facade) :
  _wallets m !! name req = Some w ->
  truthy_obj (prop (self w) (namespace req)) = false ->
  callWallet E req m = (Throw (Error "wallet doesnt have this namespace"), m)
  /\ classify (Error "wallet doesnt have this namespace") = InvalidNamespace.
Proof.
  intros Hw Hns. split; [|reflexivity].
  rewrite (callWallet_materialized E req m w Hw). unfold dispatch. cbn zeta.
  rewrite Hns. reflexivity.
Qed.

Lemma callWallet_unknown_namespace_witness :
  callWallet env (request "w" "swap" (Some "btc") (Some "getBalance") (VArr []) None)
    (manager ["w"] ["w"])
  = (Throw (Error "wallet doesnt have this namespace"), manager ["w"] ["w"]).
Proof.
  refine (proj1 (callWallet_unknown_namespace env
                   (request "w" "swap" (Some "btc") (Some "getBalance") (VArr []) None)
                   (manager ["w"] ["w"]) (facade "w") _ _));
    vm_compute; reflexivity.
Defined.

(** X16: a request without resource (absent or empty) whose namespace,
    other than "on"/"off", is a callable of the facade: [callWallet] calls
    it once with the params spread and its outcome is the outcome of that
    call; params that cannot be spread (neither an array nor a string) make
    the call fail with a TypeError before anything is invoked, unlike on
    the resource path where they are passed whole. *)
Theorem callWallet_namespace_call (E : Env) (req : Request) (m : Manager) (w : Facade)
        (c : callee) (em : option eid) (ks : option (list string))
        (ms : list (string * jsobj)) :
  _wallets m !! name req = Some w ->
  namespace req <> "on" -> namespace req <> "off" ->
  named (resource req) = false ->
  prop (self w) (namespace req) = JNode (Some c) em ks ms ->
  callWallet E req m
  = match spread (params req) with
    | Ok args => (apply E c args, set_invoked (invoked m ++ [(c, args)]) m)
    | Throw err => (Throw err, m)
    end.
Proof.
  intros Hw Hon Hoff Hres Hns.
  rewrite (callWallet_materialized E req m w Hw). unfold dispatch. cbn zeta.
  rewrite Hns, (eqb_false _ _ Hon), (eqb_false _ _ Hoff), Hres. cbn [truthy_obj negb].
  run_monad. destruct (spread (params req)); reflexivity.
Qed.

(** X17: a subscribe or unsubscribe call whose params are not an array that
    starts with a truthy event name fails before anything else is looked
    at (scope, capacity, emitter, registered handler): with "req params
    must be an array" when params is not an array, with "event name is
    missing" otherwise; the manager is left as it was. *)
Theorem subscription_control_needs_event_name (req : Request) (w : Facade) (opts : string)
        (m : Manager) :
  names_event req = false ->
  _subscribe req w opts m = (Throw (Error (event_name_error req)), m)
  /\ _unsubscribe req w opts m = (Throw (Error (event_name_error req)), m).
Proof.
  unfold names_event, event_name_error, _subscribe, _unsubscribe, _getEventName.
  intros Hn. destruct (params req) as [| | | | |l|]; try (split; reflexivity).
  destruct l as [|eventName rest]; [split; reflexivity|].
  run_monad. cbn [hd tl]. rewrite Hn. split; reflexivity.
Qed.

Lemma subscription_control_needs_event_name_witness :
  _subscribe (request "w" "on" None None (VObj []) (Some 0)) (facade "w") "wallet"
    (manager ["w"] ["w"])
  = (Throw (Error "req params must be an array"), manager ["w"] ["w"])
  /\ _unsubscribe (request "w" "on" None None (VObj []) (Some 0)) (facade "w") "wallet"
       (manager ["w"] ["w"])
     = (Throw (Error "req params must be an array"), manager ["w"] ["w"]).
Proof.
  apply (subscription_control_needs_event_name
           (request "w" "on" None None (VObj []) (Some 0)) (facade "w") "wallet"
           (manager ["w"] ["w"])).
  reflexivity.
Defined.

Lemma callWallet_namespace_call_witness :
  callWallet env (request "s" "syncHistory" None None (VArr [VObj []]) None)
    Samples.syncing_manager
  = (Throw (Upstream 8),
     set_invoked [(External 8, [VObj []])] Samples.syncing_manager).
Proof.
  apply (callWallet_namespace_call env
           (request "s" "syncHistory" None None (VArr [VObj []]) None)
           Samples.syncing_manager Samples.syncing (External 8) None None []);
    try discriminate; vm_compute; reflexivity.
Defined.

(** ** Listeners and the subscription map *)

(** The request a handler captures: the one it was created for, its event
    name shifted out of the params. *)
Lemma _subscribe_wallet_exact (req : Request) (w : Facade) (m : Manager) (e : eid)
      (eventName : value) (rest : list value) :
  params req = VArr (eventName :: rest) ->
  truthy eventName = true ->
  emitter_of (self w) = Some e ->
  Z.of_nat (size (_subs m)) <> MAX_SUB_SIZE ->
  _subscribe req w "wallet" m
  = (Ok (wallet_key_of req eventName),
     subscribed m e (to_str eventName) (wallet_key_of req eventName)
       (mkClosure (closures m) EventHandler
          (mkRequest (name req) (namespace req) (resource req) (method req)
             (VArr rest) (notify req))
          (wallet_key_of req eventName))).
Proof.
  intros Hp Ht Hem Hsize.
  unfold _subscribe, _getEventName. rewrite Hp.
  run_monad. cbn [hd tl]. rewrite Ht. run_monad.
  apply Z.eqb_neq in Hsize. rewrite Hsize.
  cbn [String.eqb Ascii.eqb Bool.eqb].
  destruct (self w) as [|c em ks ms]; [discriminate|]. simpl in Hem. subst em.
  reflexivity.
Qed.

(** X18: subscribing twice to the same wallet-level event and unsubscribing
    once leaves the handler of the first subscribe attached to the wallet
    while the subscription map has no entry for the key: a further
    unsubscribe fails with "handler does not exist", so that listener can
    no longer be detached through the manager. *)
Theorem resubscribe_orphans_first_listener (E : Env) (n ev : string) (w : Facade)
        (e : eid) (m : Manager) (res mth : option string) (ch : option chan) :
  _wallets m !! n = Some w ->
  emitter_of (self w) = Some e ->
  ev <> "" ->
  (Z.of_nat (size (_subs m)) + 1 < MAX_SUB_SIZE)%Z ->
  let key := n +:+ ":" +:+ ev in
  let sub := mkRequest n "on" res mth (VArr [VStr ev]) ch in
  let unsub := mkRequest n "off" res mth (VArr [VStr ev]) ch in
  let first := mkClosure (closures m) EventHandler
                 (mkRequest n "on" res mth (VArr []) ch) key in
  let twice := snd (callWallet E sub (snd (callWallet E sub m))) in
  fst (callWallet E unsub twice) = Ok (VStr key)
  /\ EventEmitter.attached e (snd (callWallet E unsub twice))
     = EventEmitter.attached e m ++ [(ev, first)]
  /\ _subs (snd (callWallet E unsub twice)) !! key = None
  /\ callWallet E unsub (snd (callWallet E unsub twice))
     = (Throw (Error ("handler does not exist " +:+ key)),
        snd (callWallet E unsub twice)).
Proof.
  intros Hw He Hev Hroom key sub unsub first twice.
  pose proof (nonempty_truthy ev Hev) as Ht.
  assert (Hsize : Z.of_nat (size (_subs m)) <> MAX_SUB_SIZE) by lia.
  set (m1 := subscribed m e ev key first).
  assert (H1 : callWallet E sub m = (Ok (VStr key), m1)).
  { rewrite (callWallet_on E sub m w e Hw eq_refl He). run_monad.
    rewrite (_subscribe_wallet_exact sub w m e (VStr ev) [] eq_refl Ht He Hsize).
    reflexivity. }
  set (second := mkClosure (closures m1) EventHandler
                   (mkRequest n "on" res mth (VArr []) ch) key).
  set (m2 := subscribed m1 e ev key second).
  assert (Hsize1 : Z.of_nat (size (_subs m1)) <> MAX_SUB_SIZE).
  { unfold m1, subscribed. simpl. rewrite map_size_insert.
    destruct (_subs m !! key); unfold id; lia. }
  assert (H2 : twice = m2).
  { unfold twice. rewrite H1. cbn [snd].
    rewrite (callWallet_on E sub m1 w e Hw eq_refl He). run_monad.
    rewrite (_subscribe_wallet_exact sub w m1 e (VStr ev) [] eq_refl Ht He Hsize1).
    reflexivity. }
  assert (H3 : callWallet E unsub twice = (Ok (VStr key), unsubscribed m2 e ev key second)).
  { rewrite H2. rewrite (callWallet_off E unsub m2 w e Hw eq_refl He). run_monad.
    rewrite (_unsubscribe_wallet_ok unsub w m2 e (VStr ev) [] second eq_refl Ht He).
    - reflexivity.
    - change (wallet_key_of unsub (VStr ev)) with key.
      unfold m2, subscribed. simpl. apply lookup_insert_eq. }
  rewrite H3. cbn [fst snd].
  assert (Hgone : _subs (unsubscribed m2 e ev key second) !! key = None).
  { unfold unsubscribed. simpl. apply lookup_delete_eq. }
  repeat split.
  - unfold unsubscribed, m2, subscribed, EventEmitter.attached. simpl.
    rewrite !lookup_insert_eq. simpl.
    apply (remove_last_attached ev second (EventEmitter.attached e m ++ [(ev, first)])).
  - exact Hgone.
  - rewrite (callWallet_off E unsub (unsubscribed m2 e ev key second) w e Hw eq_refl He).
    run_monad.
    rewrite (_unsubscribe_wallet_missing unsub w _ (VStr ev) [] eq_refl Ht Hgone).
    reflexivity.
Qed.

Lemma resubscribe_orphans_first_listener_witness :
  let sub := mkRequest "w" "on" None None (VArr [VStr "new-tx"]) (Some 0) in
  let unsub := mkRequest "w" "off" None None (VArr [VStr "new-tx"]) (Some 0) in
  let twice := snd (callWallet env sub (snd (callWallet env sub (manager ["w"] ["w"])))) in
  EventEmitter.attached 0 (snd (callWallet env unsub twice))
  = EventEmitter.attached 0 (manager ["w"] ["w"])
      ++ [("new-tx", mkClosure 0 EventHandler
                       (mkRequest "w" "on" None None (VArr []) (Some 0)) "w:new-tx")].
Proof.
  intros sub unsub twice.
  refine (proj1 (proj2 (resubscribe_orphans_first_listener env "w" "new-tx" (facade "w") 0
                          (manager ["w"] ["w"]) None None (Some 0) _ _ _ _))).
  - vm_compute. reflexivity.
  - reflexivity.
  - discriminate.
  - vm_compute. reflexivity.
Defined.

Lemma _unsubscribe_resource_ok (req : Request) (w : Facade) (m : Manager) (e : eid)
      (eventName : value) (rest : list value) (h : Closure) :
  params req = VArr (eventName :: rest) ->
  truthy eventName = true ->
  emitter_of (prop (prop (self w) (namespace req)) (str_of (resource req))) = Some e ->
  _subs m !! resource_key_of req eventName = Some h ->
  _unsubscribe req w "resource" m
  = (Ok (resource_key_of req eventName),
     unsubscribed m e (to_str eventName) (resource_key_of req eventName) h).
Proof.
  intros Hp Ht He Hh. unfold _unsubscribe, _getEventName. rewrite Hp.
  run_monad. cbn [hd tl]. rewrite Ht. run_monad.
  cbn [String.eqb Ascii.eqb Bool.eqb namespace resource].
  destruct (prop (prop (self w) (namespace req)) (str_of (resource req)))
    as [|c em ks ms]; [discriminate|]. simpl in He. subst em. cbn [truthy_obj].
  unfold _getEventHandler. run_monad.
  change (resource_key_of (mkRequest (name req) (namespace req) (resource req) (method req)
                             (VArr rest) (notify req)) eventName)
    with (resource_key_of req eventName).
  rewrite Hh. reflexivity.
Qed.

(** X19: for a materialized wallet [n], a namespace [ns] other than
    "on"/"off", a resource [res] of it that is an emitter, a non-empty event
    name [ev] and a subscription map below capacity: the request with
    method "on" returns the key "n:ns-res:ev", registers a handler under it
    and attaches it to the resource as last listener; the request with
    method "off" then returns the same key, removes the entry and detaches
    that handler, the listeners of the resource being what they were. *)
Theorem resource_subscribe_then_unsubscribe (E : Env) (n ns res ev : string) (w : Facade)
        (e : eid) (m : Manager) (ch ch' : option chan) :
  _wallets m !! n = Some w ->
  ns <> "on" -> ns <> "off" -> res <> "" -> ev <> "" ->
  emitter_of (prop (prop (self w) ns) res) = Some e ->
  Z.of_nat (size (_subs m)) <> MAX_SUB_SIZE ->
  let key := n +:+ ":" +:+ ns +:+ "-" +:+ res +:+ ":" +:+ ev in
  let sub := mkRequest n ns (Some res) (Some "on") (VArr [VStr ev]) ch in
  let unsub := mkRequest n ns (Some res) (Some "off") (VArr [VStr ev]) ch' in
  fst (callWallet E sub m) = Ok (VStr key)
  /\ (exists h, cl_code h = EventHandler
                /\ _subs (snd (callWallet E sub m)) = <[key := h]> (_subs m)
                /\ EventEmitter.attached e (snd (callWallet E sub m))
                   = EventEmitter.attached e m ++ [(ev, h)])
  /\ fst (callWallet E unsub (snd (callWallet E sub m))) = Ok (VStr key)
  /\ _subs (snd (callWallet E unsub (snd (callWallet E sub m)))) = delete key (_subs m)
  /\ EventEmitter.attached e (snd (callWallet E unsub (snd (callWallet E sub m))))
     = EventEmitter.attached e m.
Proof.
  intros Hw Hon Hoff Hres Hev He Hsize key sub unsub.
  pose proof (nonempty_truthy ev Hev) as Ht.
  assert (Hnamed : named (Some res) = true) by (simpl; rewrite (eqb_false _ _ Hres); reflexivity).
  assert (Htr : truthy_obj (prop (prop (self w) ns) res) = true).
  { destruct (prop (prop (self w) ns) res); [discriminate|reflexivity]. }
  assert (Htn : truthy_obj (prop (self w) ns) = true) by (apply (truthy_prop _ res); exact Htr).
  destruct (_subscribe_ok sub w "resource" m e (VStr ev) [] eq_refl Ht (or_intror eq_refl))
    as [h [Hcode Hstep]]; [exact He|exact Hsize|].
  change (key_of (sub, w, "resource")) with key in Hstep.
  change (to_str (VStr ev)) with ev in Hstep.
  assert (H1 : callWallet E sub m = (Ok (VStr key), subscribed m e ev key h)).
  { rewrite (callWallet_resource_path E sub m w Hw Hon Hoff Hnamed Htn).
    unfold sub in *. cbn [namespace resource method]. change (str_of (Some res)) with res.
    rewrite Htr. cbn [negb]. change (is_str (Some "on") "on") with true. cbn iota.
    run_monad. rewrite Hstep. reflexivity. }
  assert (H2 : callWallet E unsub (subscribed m e ev key h)
               = (Ok (VStr key), unsubscribed (subscribed m e ev key h) e ev key h)).
  { rewrite (callWallet_resource_path E unsub (subscribed m e ev key h) w Hw Hon Hoff
               Hnamed Htn).
    unfold unsub in *. cbn [namespace resource method]. change (str_of (Some res)) with res.
    rewrite Htr. cbn [negb]. change (is_str (Some "off") "on") with false.
    change (is_str (Some "off") "off") with true. cbn iota.
    run_monad.
    rewrite (_unsubscribe_resource_ok
               (mkRequest n ns (Some res) (Some "off") (VArr [VStr ev]) ch') w
               (subscribed m e ev key h) e (VStr ev) [] h eq_refl Ht He).
    - reflexivity.
    - change (resource_key_of _ (VStr ev)) with key.
      unfold subscribed. simpl. apply lookup_insert_eq. }
  rewrite H1. cbn [fst snd]. rewrite H2. cbn [fst snd].
  split; [reflexivity|]. split.
  - exists h. split; [exact Hcode|]. split; [reflexivity|].
    unfold subscribed, EventEmitter.attached. simpl. rewrite lookup_insert_eq. reflexivity.
  - split; [reflexivity|]. split.
    + unfold unsubscribed, subscribed. simpl. apply delete_insert_eq.
    + unfold unsubscribed, subscribed, EventEmitter.attached. simpl.
      rewrite !lookup_insert_eq. simpl. apply remove_last_attached.
Qed.

Lemma resource_subscribe_then_unsubscribe_witness :
  fst (callWallet env (mkRequest "w" "pay" (Some "btc") (Some "on") (VArr [VStr "new-tx"])
                         (Some 0)) (manager ["w"] ["w"]))
  = Ok (VStr "w:pay-btc:new-tx").
Proof.
  refine (proj1 (resource_subscribe_then_unsubscribe env "w" "pay" "btc" "new-tx"
                   (facade "w") 1 (manager ["w"] ["w"]) (Some 0) (Some 0) _ _ _ _ _ _ _));
    try discriminate; vm_compute; try reflexivity; discriminate.
Defined.

(** ** Emitting *)



(** [off] undoes the [on] that precedes it: the listeners of the
    emitter are what they were before the two calls, those of other
    emitters are not touched; and [off] of a listener that is not attached
    under that event leaves the listeners of the emitter as they are. *)
Theorem off_undoes_on (e : eid) (ev : string) (c : Closure) (m : Manager) :
  EventEmitter.attached e
    (snd (EventEmitter.off e ev c (snd (EventEmitter.on e ev c m))))
  = EventEmitter.attached e m
  /\ (forall e', e' <> e ->
        EventEmitter.attached e'
          (snd (EventEmitter.off e ev c (snd (EventEmitter.on e ev c m))))
        = EventEmitter.attached e' m)
  /\ (Forall (fun x => EventEmitter.same ev c x = false) (EventEmitter.attached e m) ->
      EventEmitter.attached e (snd (EventEmitter.off e ev c m)) = EventEmitter.attached e m).
Proof.
  repeat split.
  - unfold EventEmitter.off, EventEmitter.on, EventEmitter.attached, modify. simpl.
    rewrite !lookup_insert_eq. simpl. apply remove_last_attached.
  - intros e' Hne. unfold EventEmitter.off, EventEmitter.on, EventEmitter.attached, modify.
    simpl. rewrite !lookup_insert_ne by congruence. reflexivity.
  - intros Hall. unfold EventEmitter.off, EventEmitter.attached, modify. simpl.
    rewrite lookup_insert_eq. simpl. fold (EventEmitter.attached e m).
    assert (Hno : forall l, Forall (fun x => EventEmitter.same ev c x = false) l ->
                            EventEmitter.remove_first ev c l = l).
    { induction 1 as [|x r Hx Hr IH]; simpl; [reflexivity|]. rewrite Hx, IH. reflexivity. }
    rewrite Hno; [apply rev_involutive|].
    apply Forall_rev. exact Hall.
Qed.

Lemma off_undoes_on_witness :
  EventEmitter.attached 0
    (snd (EventEmitter.off 0 "new-tx"
            (mkClosure 5 EventHandler (request "w" "on" None None (VArr []) None) "w:new-tx")
            (manager ["w"] ["w"])))
  = EventEmitter.attached 0 (manager ["w"] ["w"]).
Proof.
  refine (proj2 (proj2 (off_undoes_on 0 "new-tx"
                          (mkClosure 5 EventHandler
                             (request "w" "on" None None (VArr []) None) "w:new-tx")
                          (manager ["w"] ["w"]))) _).
  vm_compute. constructor.
Defined.

(** ** The token registry, continued *)

Lemma assoc_set_eq (k : string) (v : WalletPay.Token) (l : list (string * WalletPay.Token)) :
  assoc k (WalletPay.set k v l) = Some v.
Proof.
  induction l as [|[k' v'] r IH]; simpl.
  - rewrite String.eqb_refl. reflexivity.
  - destruct (String.eqb k k') eqn:Hk; simpl.
    + rewrite String.eqb_refl. reflexivity.
    + rewrite Hk. exact IH.
Qed.

Lemma assoc_set_ne (k k' : string) (v : WalletPay.Token) (l : list (string * WalletPay.Token)) :
  k' <> k -> assoc k' (WalletPay.set k v l) = assoc k' l.
Proof.
  intros Hne. induction l as [|[k0 v0] r IH]; simpl.
  - rewrite (eqb_false _ _ Hne). reflexivity.
  - destruct (String.eqb k k0) eqn:Hk; simpl.
    + apply String.eqb_eq in Hk. subst k0. rewrite (eqb_false _ _ Hne). reflexivity.
    + destruct (String.eqb k' k0); [reflexivity|exact IH].
Qed.

Lemma assoc_keys {A : Type} (k : string) (l : list (string * A)) :
  assoc k l = None <-> k ∉ map fst l.
Proof.
  induction l as [|[k' v] r IH]; simpl.
  - split; [intros _ H; inversion H|reflexivity].
  - destruct (String.eqb k k') eqn:Hk.
    + apply String.eqb_eq in Hk. subst k'. split; [discriminate|].
      intros H. exfalso. apply H. left.
    + apply String.eqb_neq in Hk. rewrite IH, not_elem_of_cons. tauto.
Qed.

Lemma set_new_key (k : string) (v : WalletPay.Token) (l : list (string * WalletPay.Token)) :
  assoc k l = None -> map fst (WalletPay.set k v l) = map fst l ++ [k].
Proof.
  induction l as [|[k' v'] r IH]; simpl; [reflexivity|].
  destruct (String.eqb k k') eqn:Hk; [discriminate|].
  intros Hr. simpl. f_equal. apply IH. exact Hr.
Qed.

Lemma set_keeps_distinct (k : string) (v : WalletPay.Token) (l : list (string * WalletPay.Token)) :
  NoDup (map fst l) -> NoDup (map fst (WalletPay.set k v l)).
Proof.
  intros Hnd. destruct (assoc k l) as [old|] eqn:Hk.
  - rewrite (set_keeps_keys k v old l Hk). exact Hnd.
  - rewrite (set_new_key k v l Hk). apply NoDup_app. repeat split.
    + exact Hnd.
    + intros x Hx Hx'. apply list_elem_of_singleton in Hx'. subst x.
      apply assoc_keys in Hk. contradiction.
    + apply NoDup_singleton.
Qed.

(** X21: [addToken] never adds a token: whatever the token and the
    registry, the call either throws or overwrites an entry that is there,
    so the keys of the registry are the same after it. *)
Theorem addToken_never_adds (token : WalletPay.Token) (this : WalletPay.t) :
  WalletPay.getTokensKeys (snd (WalletPay.addToken token this))
  = WalletPay.getTokensKeys this.
Proof.
  destruct (assoc (WalletPay.token_name token) (WalletPay._tokens this)) as [old|] eqn:Hk.
  - rewrite (addToken_present token old this Hk). unfold WalletPay.getTokensKeys. simpl.
    apply (set_keeps_keys _ _ old). exact Hk.
  - rewrite (addToken_absent token this Hk). reflexivity.
Qed.

(** X22: [addToken] of a token whose name is registered replaces the
    registered token: the name then yields the new token, every other name
    yields what it did. *)
Theorem addToken_replaces (token old : WalletPay.Token) (this : WalletPay.t) :
  assoc (WalletPay.token_name token) (WalletPay._tokens this) = Some old ->
  fst (WalletPay.addToken token this) = Ok tt
  /\ assoc (WalletPay.token_name token)
       (WalletPay._tokens (snd (WalletPay.addToken token this))) = Some token
  /\ forall k, k <> WalletPay.token_name token ->
               assoc k (WalletPay._tokens (snd (WalletPay.addToken token this)))
               = assoc k (WalletPay._tokens this).
Proof.
  intros Hk. rewrite (addToken_present token old this Hk). simpl. repeat split.
  - apply assoc_set_eq.
  - intros k Hne. apply assoc_set_ne. exact Hne.
Qed.

Lemma addToken_replaces_witness :
  assoc "USDT"
    (WalletPay._tokens
       (snd (WalletPay.addToken (WalletPay.mkToken "USDT" (VStr "v2"))
               (WalletPay.mkWalletPay "eth" [("USDT", usdt)]))))
  = Some (WalletPay.mkToken "USDT" (VStr "v2")).
Proof.
  refine (proj1 (proj2 (addToken_replaces (WalletPay.mkToken "USDT" (VStr "v2")) usdt
                          (WalletPay.mkWalletPay "eth" [("USDT", usdt)]) _))).
  reflexivity.
Defined.

Lemma loadToken_app (pre rest : list WalletPay.Token) (this : WalletPay.t) :
  WalletPay.loadToken (pre ++ rest) this
  = match WalletPay.loadToken pre this with
    | (Ok _, this') => WalletPay.loadToken rest this'
    | (Throw e, this') => (Throw e, this')
    end.
Proof.
  revert this. induction pre as [|tk r IH]; intros this; simpl; [reflexivity|].
  destruct (String.eqb (WalletPay.token_name tk) ""); [reflexivity|]. apply IH.
Qed.

Lemma loadToken_keeps_distinct (tokens : list WalletPay.Token) (this : WalletPay.t) :
  NoDup (WalletPay.getTokensKeys this) ->
  NoDup (WalletPay.getTokensKeys (snd (WalletPay.loadToken tokens this))).
Proof.
  revert this. induction tokens as [|tk r IH]; intros this Hnd; simpl; [exact Hnd|].
  destruct (String.eqb (WalletPay.token_name tk) ""); [exact Hnd|].
  apply IH. unfold WalletPay.getTokensKeys. simpl. apply set_keeps_distinct. exact Hnd.
Qed.

Lemma loadToken_other (tokens : list WalletPay.Token) (this : WalletPay.t) (k : string) :
  Forall (fun tk => WalletPay.token_name tk <> k) tokens ->
  assoc k (WalletPay._tokens (snd (WalletPay.loadToken tokens this)))
  = assoc k (WalletPay._tokens this).
Proof.
  revert this. induction tokens as [|tk r IH]; intros this Hall; simpl; [reflexivity|].
  inversion Hall as [|? ? Hne Hr]; subst.
  destruct (String.eqb (WalletPay.token_name tk) ""); [reflexivity|].
  rewrite (IH _ Hr). simpl. apply assoc_set_ne. congruence.
Qed.

Lemma loadToken_named (tokens : list WalletPay.Token) (this : WalletPay.t) :
  Forall (fun tk => WalletPay.token_name tk <> "") tokens ->
  fst (WalletPay.loadToken tokens this) = Ok tt.
Proof.
  revert this. induction tokens as [|tk r IH]; intros this Hall; simpl; [reflexivity|].
  inversion Hall as [|? ? Hne Hr]; subst.
  rewrite (eqb_false _ _ Hne). apply IH. exact Hr.
Qed.

(** X23: [loadToken] of tokens that all have a name returns normally; each
    name then yields the last token loaded under it (a later token with the
    same name replaces an earlier one), names not among the loaded ones
    yield what they did, and the keys of the registry stay pairwise
    distinct. *)
Theorem loadToken_registers (tokens : list WalletPay.Token) (this : WalletPay.t) :
  Forall (fun tk => WalletPay.token_name tk <> "") tokens ->
  fst (WalletPay.loadToken tokens this) = Ok tt
  /\ (forall pre tk post,
        tokens = pre ++ tk :: post ->
        Forall (fun tk' => WalletPay.token_name tk' <> WalletPay.token_name tk) post ->
        assoc (WalletPay.token_name tk)
          (WalletPay._tokens (snd (WalletPay.loadToken tokens this))) = Some tk)
  /\ (forall k, Forall (fun tk => WalletPay.token_name tk <> k) tokens ->
                assoc k (WalletPay._tokens (snd (WalletPay.loadToken tokens this)))
                = assoc k (WalletPay._tokens this))
  /\ (NoDup (WalletPay.getTokensKeys this) ->
      NoDup (WalletPay.getTokensKeys (snd (WalletPay.loadToken tokens this)))).
Proof.
  intros Hall. split; [apply loadToken_named; exact Hall|]. split; [|split].
  - intros pre tk post -> Hpost.
    apply Forall_app in Hall as [Hpre Htk].
    inversion Htk as [|? ? Hne Hnamed]; subst.
    rewrite loadToken_app.
    pose proof (loadToken_named pre this Hpre) as Hok.
    destruct (WalletPay.loadToken pre this) as [[[]|err] this1]; [|discriminate].
    simpl. rewrite (eqb_false _ _ Hne).
    rewrite (loadToken_other post _ _ Hpost). simpl. apply assoc_set_eq.
  - intros k Hk. apply loadToken_other. exact Hk.
  - apply loadToken_keeps_distinct.
Qed.

Lemma loadToken_registers_witness :
  fst (WalletPay.loadToken [usdt; Samples.usdc; WalletPay.mkToken "USDT" (VStr "v2")]
         (WalletPay.mkWalletPay "eth" [])) = Ok tt
  /\ assoc "USDT"
       (WalletPay._tokens
          (snd (WalletPay.loadToken [usdt; Samples.usdc; WalletPay.mkToken "USDT" (VStr "v2")]
                  (WalletPay.mkWalletPay "eth" []))))
     = Some (WalletPay.mkToken "USDT" (VStr "v2")).
Proof.
  assert (Hall : Forall (fun tk => WalletPay.token_name tk <> "")
                   [usdt; Samples.usdc; WalletPay.mkToken "USDT" (VStr "v2")])
    by (repeat constructor; discriminate).
  destruct (loadToken_registers _ (WalletPay.mkWalletPay "eth" []) Hall) as [H1 [H2 _]].
  split; [exact H1|].
  apply (H2 [usdt; Samples.usdc] (WalletPay.mkToken "USDT" (VStr "v2")) []);
    [reflexivity|constructor].
Defined.

(** X24: [loadToken] stops at the first token without a name: it throws
    "token class missing name", the tokens before it are registered (the
    registry is the one obtained by loading just those) and the tokens
    after it are not looked at. *)
Theorem loadToken_stops_at_unnamed (pre post : list WalletPay.Token) (tk : WalletPay.Token)
        (this : WalletPay.t) :
  Forall (fun tk' => WalletPay.token_name tk' <> "") pre ->
  WalletPay.token_name tk = "" ->
  WalletPay.loadToken (pre ++ tk :: post) this
  = (Throw (Error "token class missing name"), snd (WalletPay.loadToken pre this)).
Proof.
  intros Hpre Htk. rewrite loadToken_app.
  pose proof (loadToken_named pre this Hpre) as Hok.
  destruct (WalletPay.loadToken pre this) as [[[]|err] this1]; [|discriminate].
  simpl. rewrite Htk. reflexivity.
Qed.

Lemma loadToken_stops_at_unnamed_witness :
  WalletPay.loadToken ([usdt] ++ Samples.unnamed :: [Samples.usdc])
    (WalletPay.mkWalletPay "eth" [])
  = (Throw (Error "token class missing name"),
     snd (WalletPay.loadToken [usdt] (WalletPay.mkWalletPay "eth" []))).
Proof.
  apply (loadToken_stops_at_unnamed [usdt] [Samples.usdc] Samples.unnamed
           (WalletPay.mkWalletPay "eth" [])).
  - repeat constructor. discriminate.
  - reflexivity.
Defined.

(** ** callToken *)

Section CallToken.

Context (method_of : WalletPay.Token -> string -> option fid).
Context (run : fid -> list value -> outcome value).

(** X25: [callToken] with the name of one token: a name that is not
    registered fails with "token with name: <n> does not exist in
    _tokens", a token without the method fails with "Method <m> does not
    exist in token <n>", and otherwise the outcome is exactly the outcome
    of the token's method called with [argArr], not wrapped in a list. *)
Theorem callToken_named (method n : string) (argArr : list value) (this : WalletPay.t) :
  n <> "" ->
  (assoc n (WalletPay._tokens this) = None ->
   TokenCalls.callToken method_of run method (VStr n) argArr this
   = Throw (Error ("token with name: " +:+ n +:+ " does not exist in _tokens")))
  /\ (forall tk, assoc n (WalletPay._tokens this) = Some tk ->
                 method_of tk method = None ->
                 TokenCalls.callToken method_of run method (VStr n) argArr this
                 = Throw (Error ("Method " +:+ method +:+ " does not exist in token " +:+ n)))
  /\ (forall tk fn, assoc n (WalletPay._tokens this) = Some tk ->
                    method_of tk method = Some fn ->
                    TokenCalls.callToken method_of run method (VStr n) argArr this
                    = run fn argArr).
Proof.
  intros Hn. unfold TokenCalls.callToken. simpl truthy. rewrite (eqb_false _ _ Hn).
  cbn [negb]. cbn [TokenCalls.start]. unfold TokenCalls.start_one. repeat split.
  - intros ->. reflexivity.
  - intros tk -> ->. reflexivity.
  - intros tk fn -> ->. simpl. destruct (run fn argArr); reflexivity.
Qed.

Lemma start_all (method : string) (argArr : list value) (this : WalletPay.t)
      (l : list (string * WalletPay.Token)) (vs : list value) :
  (forall k tk, In (k, tk) l -> assoc k (WalletPay._tokens this) = Some tk) ->
  Forall2 (fun x v => exists fn, method_of (snd x) method = Some fn
                                 /\ run fn argArr = Ok v) l vs ->
  TokenCalls.start method_of run this method argArr (map fst l) = Ok (map Ok vs).
Proof.
  intros Hfind Hall. induction Hall as [|[k tk] v r vs' [fn [Hm Hr]] Hrest IH]; [reflexivity|].
  cbn [map fst TokenCalls.start]. unfold TokenCalls.start_one.
  rewrite (Hfind k tk (or_introl eq_refl)). simpl in Hm. rewrite Hm, Hr.
  rewrite IH; [reflexivity|]. intros k' tk' Hin. apply Hfind. right. exact Hin.
Qed.

Lemma join_all (vs : list value) : TokenCalls.join (map Ok vs) = Ok vs.
Proof. induction vs as [|v r IH]; simpl; [reflexivity|]. rewrite IH. reflexivity. Qed.

Lemma assoc_distinct {A : Type} (l : list (string * A)) (k : string) (v : A) :
  NoDup (map fst l) -> In (k, v) l -> assoc k l = Some v.
Proof.
  induction l as [|[k' v'] r IH]; intros Hnd Hin; [contradiction|].
  simpl in Hnd. apply NoDup_cons in Hnd as [Hk Hnd]. simpl.
  destruct Hin as [Heq|Hin].
  - injection Heq as -> ->. rewrite String.eqb_refl. reflexivity.
  - destruct (String.eqb k k') eqn:Heq; [|apply IH; assumption].
    apply String.eqb_eq in Heq. subst k'. exfalso. apply Hk.
    apply list_elem_of_In, in_map_iff. exists (k, v). split; [reflexivity|exact Hin].
Qed.

(** X26: [callToken] without token name (undefined, null, empty) calls the
    method on every registered token, in registry order; when every token
    has the method and every call resolves, the result is the list of the
    values in that order, except that with exactly one token it is that
    token's value itself, not a one-element list (and with no token the
    empty list). *)
Theorem callToken_all (method : string) (tokenName : value) (argArr : list value)
        (this : WalletPay.t) (vs : list value) :
  truthy tokenName = false ->
  NoDup (WalletPay.getTokensKeys this) ->
  Forall2 (fun x v => exists fn, method_of (snd x) method = Some fn
                                 /\ run fn argArr = Ok v)
          (WalletPay._tokens this) vs ->
  TokenCalls.callToken method_of run method tokenName argArr this
  = Ok (match vs with
        | [v] => v
        | _ => VArr vs
        end).
Proof.
  intros Hfalsy Hnd Hall. unfold TokenCalls.callToken. rewrite Hfalsy. cbn [negb].
  unfold WalletPay.getTokensKeys.
  rewrite (start_all method argArr this (WalletPay._tokens this) vs).
  - rewrite join_all. destruct vs as [|v [|v' r]]; reflexivity.
  - intros k tk Hin. apply assoc_distinct; assumption.
  - exact Hall.
Qed.

(** X27: a token name that is truthy but not a string is rejected with
    "invalid token name passed: <name>", no token being called. *)
Theorem callToken_invalid_name (method : string) (tokenName : value) (argArr : list value)
        (this : WalletPay.t) :
  truthy tokenName = true ->
  (forall s, tokenName <> VStr s) ->
  TokenCalls.callToken method_of run method tokenName argArr this
  = Throw (Error ("invalid token name passed: " +:+ to_str tokenName)).
Proof.
  intros Ht Hs. unfold TokenCalls.callToken. rewrite Ht. cbn [negb].
  destruct tokenName; try reflexivity. exfalso. apply (Hs s). reflexivity.
Qed.

End CallToken.

Lemma callToken_named_witness :
  TokenCalls.callToken Samples.method_of Samples.run "getBalance" (VStr "USDT") []
    (WalletPay.mkWalletPay "eth" [("USDT", usdt)])
  = Ok (VNum 42).
Proof.
  refine (proj2 (proj2 (callToken_named Samples.method_of Samples.run "getBalance" "USDT" []
                          (WalletPay.mkWalletPay "eth" [("USDT", usdt)]) _)) usdt 7 _ _).
  - discriminate.
  - reflexivity.
  - reflexivity.
Defined.

Lemma callToken_all_witness :
  TokenCalls.callToken Samples.method_of Samples.run "getBalance" VUndef []
    (WalletPay.mkWalletPay "eth" [("USDT", usdt)])
  = Ok (VNum 42)
  /\ TokenCalls.callToken Samples.method_of Samples.run "getBalance" VUndef []
       (WalletPay.mkWalletPay "eth" [("USDT", usdt); ("USDC", Samples.usdc)])
     = Ok (VArr [VNum 42; VNum 42]).
Proof.
  split.
  - apply (callToken_all Samples.method_of Samples.run "getBalance" VUndef []
             (WalletPay.mkWalletPay "eth" [("USDT", usdt)]) [VNum 42]).
    + reflexivity.
    + vm_compute. apply NoDup_singleton.
    + repeat constructor. exists 7. split; reflexivity.
  - apply (callToken_all Samples.method_of Samples.run "getBalance" VUndef []
             (WalletPay.mkWalletPay "eth" [("USDT", usdt); ("USDC", Samples.usdc)])
             [VNum 42; VNum 42]).
    + reflexivity.
    + vm_compute. apply NoDup_cons. split; [|apply NoDup_singleton].
      intros H. apply list_elem_of_singleton in H. discriminate.
    + repeat constructor; exists 7; split; reflexivity.
Defined.

Lemma callToken_invalid_name_witness :
  TokenCalls.callToken Samples.method_of Samples.run "getBalance" (VNum 3) []
    (WalletPay.mkWalletPay "eth" [("USDT", usdt)])
  = Throw (Error "invalid token name passed: 3").
Proof.
  apply (callToken_invalid_name Samples.method_of Samples.run "getBalance" (VNum 3) []
           (WalletPay.mkWalletPay "eth" [("USDT", usdt)])).
  - reflexivity.
  - discriminate.
Defined.

(** ** TxEntry *)




(** ** Removing, continued *)

Lemma digits_of_non_digit (s : string) (a : Ascii.ascii) :
  In a (String.list_ascii_of_string s) -> digit a = None -> forall acc, digits acc s = None.
Proof.
  induction s as [|b r IH]; intros Hin Ha acc; [contradiction|].
  simpl in Hin. simpl. destruct Hin as [->|Hin].
  - rewrite Ha. reflexivity.
  - destruct (digit b); [apply IH; assumption|reflexivity].
Qed.

(** X29: [removeWallet] never deletes an export record and never touches
    the in-memory wallets, the subscription map or the listeners; and for
    every name that contains a character other than a decimal digit and is
    not "length", it resolves and leaves the index as it is. *)
Theorem removeWallet_only_empties_slots (req : Request) (n : string) (m : Manager) :
  records (_store (snd (removeWallet req n m))) = records (_store m)
  /\ _wallets (snd (removeWallet req n m)) = _wallets m
  /\ _subs (snd (removeWallet req n m)) = _subs m
  /\ listeners (snd (removeWallet req n m)) = listeners m
  /\ (forall a, In a (String.list_ascii_of_string n) -> digit a = None -> n <> "length" ->
                fst (removeWallet req n m) = Ok tt
                /\ index (snd (removeWallet req n m)) = index m).
Proof.
  unfold removeWallet, getWalletList, _updateWalletList, delete_prop. run_monad.
  fold (index m). repeat split.
  1-4: destruct (array_index n); [|destruct (String.eqb n "length")]; reflexivity.
  all: unfold array_index; rewrite (digits_of_non_digit n a H H0);
    rewrite (eqb_false _ _ H1); reflexivity.
Qed.

Lemma removeWallet_only_empties_slots_witness :
  fst (removeWallet (request "" "" None None VUndef None) "savings" (manager ["savings"] []))
  = Ok tt
  /\ index (snd (removeWallet (request "" "" None None VUndef None) "savings"
                   (manager ["savings"] [])))
     = index (manager ["savings"] []).
Proof.
  destruct (removeWallet_only_empties_slots (request "" "" None None VUndef None)
              "savings" (manager ["savings"] [])) as [_ [_ [_ [_ H]]]].
  apply (H (Ascii.ascii_of_nat 115)).
  - vm_compute. left. reflexivity.
  - reflexivity.
  - discriminate.
Defined.
